(** * Verification of the grid fluid solver [fluid_sim.py]

    The development embeds the class [Fluid] of [src/fluid_sim.py]:
    its attributes become a record, its methods become functions that
    pass the record along, and a method that can raise returns a
    [result].  The numpy arrays are stored as lists of rows; the views
    [velo[:, :, 0]] and [velo[:, :, 1]] that [step] hands to [project]
    and [advect] are references into the record, so that a write through
    a view is seen by every other reader of the same buffer.  An
    assignment to a slice builds the array anew from the cells of the
    old one, as numpy evaluates the right-hand side before it stores.

    Floating point numbers are abstracted by the class [Num]: every
    definition and every structural theorem is stated for an arbitrary
    carrier with the operations the source uses, and makes no use of any
    law of arithmetic.  The theorems that speak about numerical values
    are stated for the exact rationals [Qc], an idealisation of the
    doubles of the source: rounding, infinities and NaN are not
    modelled.  Over [Qc] a theorem states an equation between values,
    which the doubles meet exactly or up to rounding.  What depends on
    the way a comparison or a floor of a computed value goes, such as
    the cells at which [advect] raises, is stated for an arbitrary
    [Num], or at states whose numbers are small integers and halves,
    where the doubles compute as the rationals do.

    The constant indices [0], [1], [-1] and [-2] of [set_boundaries]
    exist on every grid with [2 <= size]; the theorems assume such a
    grid, most of them a grid with an interior, [3 <= size].  A record
    stands for an object whose arrays have the shapes [__init__] gives
    them. *)

From Stdlib Require Import ZArith List Bool Lia.
From Stdlib Require Import QArith Qcanon Qround Qcabs Field.
Import ListNotations.
Local Open Scope Z_scope.

Set Implicit Arguments.

(** ** Numbers *)

(** The arithmetic the source performs on floats.  [of_int] is the
    promotion of a Python [int] that meets a float, [half] the literal
    [0.5], [fne] is [!=], [flt] is [<] ([x > y] is [flt y x]) and
    [floor] is [math.floor]. *)
Class Num (R : Type) := {
  of_int : Z -> R;
  half : R;
  fadd : R -> R -> R;
  fsub : R -> R -> R;
  fmul : R -> R -> R;
  fdiv : R -> R -> R;
  fneg : R -> R;
  fne : R -> R -> bool;
  flt : R -> R -> bool;
  floor : R -> Z
}.

(** ** Errors *)

(** The exception the methods can raise on a grid with at least two
    rows and columns is numpy's [IndexError].  Python also refuses the
    division [1 / c] of [lin_solve] for a zero [c]; that case is not
    modelled, [fdiv] is total, and the theorems about [lin_solve] and
    its callers leave it out by a hypothesis where [c] is not a
    non-zero constant. *)
Inductive result (A : Type) : Type :=
| Ok (a : A)
| IndexError.

Arguments Ok {A} a.
Arguments IndexError {A}.

Definition bind {A B : Type} (r : result A) (k : A -> result B) : result B :=
  match r with
  | Ok a => k a
  | IndexError => IndexError
  end.

Notation "x <- r ;; k" := (bind r (fun x => k))
  (at level 61, r at next level, right associativity).

(** ** Index ranges *)

(** [range(lo, hi)] *)
Definition range (lo hi : Z) : list Z :=
  map (fun k => lo + Z.of_nat k) (seq 0 (Z.to_nat (hi - lo))).

(** numpy's treatment of an integer index [k] on an axis of length [n]:
    a negative index counts from the end. *)
Definition wrap (n k : Z) : Z := if k <? 0 then k + n else k.

Definition in_bounds (n k : Z) : bool := (- n <=? k) && (k <? n).

(** The cells [1:-1, 1:-1]. *)
Definition interior (n i j : Z) : bool :=
  (1 <=? i) && (i <? n - 1) && (1 <=? j) && (j <? n - 1).

(** [for k in range(lo, hi): body] for a body that may raise. *)
Definition for_range {A : Type} (lo hi : Z) (body : Z -> A -> result A)
  (a : A) : result A :=
  fold_left (fun acc k => bind acc (body k)) (range lo hi) (Ok a).

Section Arrays.

Context {R : Type} {num : Num R}.

(** ** Two-dimensional arrays *)

Definition plane : Type := list (list R).

(** [t[i, j]] for [0 <= i, j]. *)
Definition get (t : plane) (i j : Z) : R :=
  nth (Z.to_nat j) (nth (Z.to_nat i) t []) (of_int 0).

(** The [n] by [n] array whose cell [(i, j)] is [g i j]. *)
Definition tabulate (n : Z) (g : Z -> Z -> R) : plane :=
  map (fun i => map (g i) (range 0 n)) (range 0 n).

(** [np.full((n, n), v)] *)
Definition full (n : Z) (v : R) : plane := tabulate n (fun _ _ => v).

(** [t[i, j]] for an index computed at run time: numpy checks it. *)
Definition lookup (n : Z) (t : plane) (i j : Z) : result R :=
  if in_bounds n i && in_bounds n j
  then Ok (get t (wrap n i) (wrap n j))
  else IndexError.

(** [t[:, j] = g], where [g i] is the value for row [i]. *)
Definition set_col (n : Z) (t : plane) (j : Z) (g : Z -> R) : plane :=
  tabulate n (fun i' j' => if j' =? wrap n j then g i' else get t i' j').

(** [t[i, :] = g], where [g j] is the value for column [j]. *)
Definition set_row (n : Z) (t : plane) (i : Z) (g : Z -> R) : plane :=
  tabulate n (fun i' j' => if i' =? wrap n i then g j' else get t i' j').

(** [t[i, j] = v] *)
Definition set_cell (n : Z) (t : plane) (i j : Z) (v : R) : plane :=
  tabulate n (fun i' j' =>
    if (i' =? wrap n i) && (j' =? wrap n j) then v else get t i' j').

(** [t[1:-1, 1:-1] = g], where [g i j] is the value for cell [(i, j)]. *)
Definition set_interior (n : Z) (t : plane) (g : Z -> Z -> R) : plane :=
  tabulate n (fun i j => if interior n i j then g i j else get t i j).

(** [t[1:-1, 1:-1].sum()] *)
Definition sum_interior (n : Z) (t : plane) : R :=
  fold_left (fun acc i =>
    fold_left (fun acc j => fadd acc (get t i j)) (range 1 (n - 1)) acc)
    (range 1 (n - 1)) (of_int 0).

End Arrays.

(** * The class [Fluid] *)

Section Model.

Context {R : Type} {num : Num R}.

(** ** Attributes *)

(** An array of 2d vectors, of shape [(size, size, 2)], kept as its two
    planes [[:, :, 0]] and [[:, :, 1]]. *)
Record vfield : Type := mkVfield {
  vf0 : plane (R := R);
  vf1 : plane (R := R)
}.

(** The attributes that [__init__] creates. *)
Record Fluid : Type := mkFluid {
  size : Z;
  dt : R;
  iter : Z;
  diff : R;
  visc : R;
  s : plane (R := R);
  density : plane (R := R);
  velo : vfield;
  velo0 : vfield
}.

(** ** References to the arrays *)

(** The last axis of a velocity array. *)
Inductive axis : Type := ax0 | ax1.

(** The arrays of shape [(size, size, 2)]: [self.velo], [self.velo0]. *)
Inductive buffer3 : Type := self_velo | self_velo0.

(** The arrays of shape [(size, size)]: [self.s], [self.density] and the
    views [b[:, :, 0]] and [b[:, :, 1]] of a velocity array [b], which
    share the memory of [b]. *)
Inductive buffer2 : Type :=
| self_s
| self_density
| view (b : buffer3) (k : axis).

(** What a method receives as an array argument. *)
Inductive table : Type :=
| Arr2 (v : buffer2)
| Arr3 (b : buffer3).

Definition read3 (b : buffer3) (f : Fluid) : vfield :=
  match b with
  | self_velo => velo f
  | self_velo0 => velo0 f
  end.

Definition write3 (b : buffer3) (w : vfield) (f : Fluid) : Fluid :=
  match b with
  | self_velo =>
      mkFluid (size f) (dt f) (iter f) (diff f) (visc f) (s f) (density f)
        w (velo0 f)
  | self_velo0 =>
      mkFluid (size f) (dt f) (iter f) (diff f) (visc f) (s f) (density f)
        (velo f) w
  end.

Definition read2 (v : buffer2) (f : Fluid) : plane :=
  match v with
  | self_s => s f
  | self_density => density f
  | view b ax0 => vf0 (read3 b f)
  | view b ax1 => vf1 (read3 b f)
  end.

Definition write2 (v : buffer2) (t : plane) (f : Fluid) : Fluid :=
  match v with
  | self_s =>
      mkFluid (size f) (dt f) (iter f) (diff f) (visc f) t (density f)
        (velo f) (velo0 f)
  | self_density =>
      mkFluid (size f) (dt f) (iter f) (diff f) (visc f) (s f) t
        (velo f) (velo0 f)
  | view b ax0 => write3 b (mkVfield t (vf1 (read3 b f))) f
  | view b ax1 => write3 b (mkVfield (vf0 (read3 b f)) t) f
  end.

(** The planes a table consists of: one for a 2d array, two for an
    array of vectors.  Arithmetic on whole arrays works plane by plane;
    the two operands of such an operation have the same number of
    dimensions at every call in the source. *)
Definition planes (tb : table) : list buffer2 :=
  match tb with
  | Arr2 v => [v]
  | Arr3 b => [view b ax0; view b ax1]
  end.

Definition read (tb : table) (f : Fluid) : list plane :=
  map (fun v => read2 v f) (planes tb).

Definition write (tb : table) (ts : list plane) (f : Fluid) : Fluid :=
  fold_left (fun f vt => write2 (fst vt) (snd vt) f)
    (combine (planes tb) ts) f.

Fixpoint map2 {A B C : Type} (g : A -> B -> C) (l : list A) (l' : list B)
  : list C :=
  match l, l' with
  | a :: l, b :: l' => g a b :: map2 g l l'
  | _, _ => []
  end.

(** ** [total_density] *)

Definition total_density (f : Fluid) : R :=
  sum_interior (size f) (density f).

(** ** [set_boundaries] *)

(** The four assignments under [# corners], on one plane. *)
Definition corners (n : Z) (t : plane) : plane :=
  let t := set_cell n t 0 0
    (fmul half (fadd (get t 1 0) (get t 0 1))) in
  let t := set_cell n t 0 (-1)
    (fmul half (fadd (get t 1 (wrap n (-1))) (get t 0 (wrap n (-2))))) in
  let t := set_cell n t (-1) 0
    (fmul half (fadd (get t (wrap n (-2)) 0) (get t (wrap n (-1)) 1))) in
  set_cell n t (-1) (-1)
    (fmul half (fadd (get t (wrap n (-2)) (wrap n (-1)))
                     (get t (wrap n (-1)) (wrap n (-2))))).

Definition set_boundaries (tb : table) (f : Fluid) : Fluid :=
  let n := size f in
  match tb with
  | Arr3 b =>
      (* 3d velocity vector array *)
      let t0 := vf0 (read3 b f) in
      let t1 := vf1 (read3 b f) in
      (* vertical borders *)
      let t0 := set_col n t0 0 (fun i => get t0 i 1) in
      let t1 := set_col n t1 0 (fun i => fneg (get t1 i 1)) in
      let t0 := set_col n t0 (-1) (fun i => get t0 i (wrap n (-2))) in
      let t1 := set_col n t1 (-1) (fun i => fneg (get t1 i (wrap n (-2)))) in
      (* horizontal borders *)
      let t0 := set_row n t0 0 (fun j => fneg (get t0 1 j)) in
      let t1 := set_row n t1 0 (fun j => get t1 1 j) in
      let t0 := set_row n t0 (-1) (fun j => fneg (get t0 (wrap n (-2)) j)) in
      let t1 := set_row n t1 (-1) (fun j => get t1 (wrap n (-2)) j) in
      (* corners *)
      write3 b (mkVfield (corners n t0) (corners n t1)) f
  | Arr2 v =>
      let t := read2 v f in
      let t := set_col n t 0 (fun i => get t i 1) in
      let t := set_col n t (-1) (fun i => get t i (wrap n (-2))) in
      let t := set_row n t 0 (fun j => get t 1 j) in
      let t := set_row n t (-1) (fun j => get t (wrap n (-2)) j) in
      (* corners *)
      write2 v (corners n t) f
  end.

(** ** [lin_solve] *)

(** The right-hand side of the assignment in the loop, for one plane:
    numpy evaluates it as a whole before it stores anything. *)
Definition relax (n : Z) (a c_recip : R) (x x0 : plane) : plane :=
  set_interior n x (fun i j =>
    fmul (fadd (get x0 i j)
               (fmul a (fadd (fadd (fadd (get x (i + 1) j) (get x (i - 1) j))
                                   (get x i (j + 1)))
                             (get x i (j - 1)))))
         c_recip).

Definition lin_solve (x x0 : table) (a c : R) (f : Fluid) : Fluid :=
  let c_recip := fdiv (of_int 1) c in
  fold_left (fun f iteration =>
      let f := write x (map2 (relax (size f) a c_recip) (read x f) (read x0 f)) f in
      set_boundaries x f)
    (range 0 (iter f)) f.

(** ** [diffuse] *)

Definition diffuse (x x0 : table) (diff : R) (f : Fluid) : Fluid :=
  if fne diff (of_int 0) then
    let a := fmul (fmul (fmul (dt f) diff) (of_int (size f - 2)))
                  (of_int (size f - 2)) in
    lin_solve x x0 a (fadd (of_int 1) (fmul (of_int 6) a)) f
  else (* equivalent to lin_solve with a = 0 *)
    write x (read x0 f) f.

(** ** [project] *)

Definition project (velo_x velo_y p div : buffer2) (f : Fluid) : Fluid :=
  let n := size f in
  let f := write2 div (set_interior n (read2 div f) (fun i j =>
    fdiv (fmul (fneg half)
            (fsub (fadd (fsub (get (read2 velo_x f) (i + 1) j)
                              (get (read2 velo_x f) (i - 1) j))
                        (get (read2 velo_y f) i (j + 1)))
                  (get (read2 velo_y f) i (j - 1))))
         (of_int n))) f in
  let f := write2 p (full n (of_int 0)) f in
  let f := set_boundaries (Arr2 div) f in
  let f := set_boundaries (Arr2 p) f in
  let f := lin_solve (Arr2 p) (Arr2 div) (of_int 1) (of_int 6) f in
  let f := write2 velo_x (set_interior n (read2 velo_x f) (fun i j =>
    fsub (get (read2 velo_x f) i j)
         (fmul (fmul half (fsub (get (read2 p f) (i + 1) j)
                                (get (read2 p f) (i - 1) j)))
               (of_int n)))) f in
  let f := write2 velo_y (set_interior n (read2 velo_y f) (fun i j =>
    fsub (get (read2 velo_y f) i j)
         (fmul (fmul half (fsub (get (read2 p f) i (j + 1))
                                (get (read2 p f) i (j - 1))))
               (of_int n)))) f in
  set_boundaries (Arr3 self_velo) f.

(** ** [advect] *)

(** The clamp of a traced coordinate: the two [if] statements. *)
Definition clamp (n : Z) (x : R) : R :=
  let x := if flt x half then half else x in
  if flt (fadd (of_int n) half) x then fadd (of_int n) half else x.

(** The body of the inner loop. *)
Definition advect_cell (d d0 : buffer2) (velocity : buffer3) (i j : Z)
  (f : Fluid) : result Fluid :=
  let n := size f in
  let dtx := fmul (dt f) (of_int (n - 2)) in
  let dty := fmul (dt f) (of_int (n - 2)) in
  let tmp1 := fmul dtx (get (vf0 (read3 velocity f)) i j) in
  let tmp2 := fmul dty (get (vf1 (read3 velocity f)) i j) in
  let x := fsub (of_int i) tmp1 in
  let y := fsub (of_int j) tmp2 in
  let x := clamp n x in
  let i0 := floor x in
  let i1 := i0 + 1 in
  let y := clamp n y in
  let j0 := floor y in
  let j1 := j0 + 1 in
  let s1 := fsub x (of_int i0) in
  let s0 := fsub (of_int 1) s1 in
  let t1 := fsub y (of_int j0) in
  let t0 := fsub (of_int 1) t1 in
  d00 <- lookup n (read2 d0 f) i0 j0 ;;
  d01 <- lookup n (read2 d0 f) i0 j1 ;;
  d10 <- lookup n (read2 d0 f) i1 j0 ;;
  d11 <- lookup n (read2 d0 f) i1 j1 ;;
  Ok (write2 d
        (set_cell n (read2 d f) i j
           (fadd (fmul s0 (fadd (fmul t0 d00) (fmul t1 d01)))
                 (fmul s1 (fadd (fmul t0 d10) (fmul t1 d11)))))
        f).

Definition advect (d d0 : buffer2) (velocity : buffer3) (f : Fluid)
  : result Fluid :=
  f <- for_range 1 (size f - 1) (fun j =>
         for_range 1 (size f - 1) (fun i =>
           advect_cell d d0 velocity i j)) f ;;
  Ok (set_boundaries (Arr2 d) f).

(** ** [step] *)

Definition step (f : Fluid) : result Fluid :=
  let f := diffuse (Arr3 self_velo0) (Arr3 self_velo) (visc f) f in
  let f := project (view self_velo0 ax0) (view self_velo0 ax1)
                   (view self_velo ax0) (view self_velo ax1) f in
  f <- advect (view self_velo ax0) (view self_velo0 ax0) self_velo0 f ;;
  f <- advect (view self_velo ax1) (view self_velo0 ax1) self_velo0 f ;;
  let f := project (view self_velo ax0) (view self_velo ax1)
                   (view self_velo0 ax0) (view self_velo0 ax1) f in
  let f := diffuse (Arr2 self_s) (Arr2 self_density) (diff f) f in
  advect self_density self_s self_velo f.

End Model.

(** * Exact rational numbers *)

Definition Qc_lt_bool (a b : Qc) : bool :=
  match (a ?= b)%Qc with
  | Lt => true
  | _ => false
  end.

Definition Qc_ne_bool (a b : Qc) : bool := negb (Qeq_bool a b).

(** The operations of the source on exact rationals.  They round
    nothing: a sum, product or quotient of doubles that is not a double
    is kept as it is, so that a comparison or a floor of such a value
    may go another way than in the source.  No theorem below rests on
    that. *)
#[global] Instance Qc_num : Num Qc := {|
  of_int := fun z => Q2Qc (inject_Z z);
  half := Q2Qc (1 # 2);
  fadd := Qcplus;
  fsub := Qcminus;
  fmul := Qcmult;
  fdiv := Qcdiv;
  fneg := Qcopp;
  fne := Qc_ne_bool;
  flt := Qc_lt_bool;
  floor := fun q => Qfloor q
|}.

(** * Vocabulary of the statements *)

(** The neighbour of index [k] one step inward: itself unless [k] lies
    on the boundary ring. *)
Definition near (n k : Z) : Z :=
  if k =? 0 then 1 else if k =? n - 1 then n - 2 else k.

(** [k] is the first or the last index of an axis of length [n]. *)
Definition on_edge (n k : Z) : bool := (k =? 0) || (k =? n - 1).

Section Vocabulary.

Context {R : Type} {num : Num R}.

(** The four border assignments of [set_boundaries] on one plane, with
    the sign [sc] put on the columns and the sign [sr] on the rows
    (the identity or [fneg]). *)
Definition edges (n : Z) (sc sr : R -> R) (t : plane) : plane :=
  let t := set_col n t 0 (fun i => sc (get t i 1)) in
  let t := set_col n t (-1) (fun i => sc (get t i (wrap n (-2)))) in
  let t := set_row n t 0 (fun j => sr (get t 1 j)) in
  set_row n t (-1) (fun j => sr (get t (wrap n (-2)) j)).

(** What [set_boundaries] does to one plane. *)
Definition enforce (n : Z) (sc sr : R -> R) (t : plane) : plane :=
  corners n (edges n sc sr t).

(** The value of a cell after the border assignments, from the cells of
    the array before them. *)
Definition edge_value (n : Z) (sc sr : R -> R) (t : plane) (i j : Z) : R :=
  (if on_edge n i then sr else fun v => v)
    ((if on_edge n j then sc else fun v => v)
       (get t (near n i) (near n j))).

(** The value of a cell after [set_boundaries]. *)
Definition enforced_value (n : Z) (sc sr : R -> R) (t : plane) (i j : Z)
  : R :=
  if on_edge n i && on_edge n j
  then fmul half (fadd (edge_value n sc sr t (near n i) j)
                       (edge_value n sc sr t i (near n j)))
  else edge_value n sc sr t i j.

Arguments enforce : simpl never.

(** An array of shape [(n, n)]. *)
Definition shaped (n : Z) (t : plane) : Prop := t = tabulate n (get t).

(** The unchanged sign. *)
Definition keep (v : R) : R := v.

End Vocabulary.

Section AdvectVocabulary.

Context {R : Type} {num : Num R}.

(** The array of vectors that is zero everywhere. *)
Definition zero_vfield (n : Z) : vfield :=
  mkVfield (full n (of_int 0)) (full n (of_int 0)).

(** The cells that the loops of [advect] have written when they stand
    at cell [(i, j)]: the outer loop runs over [j], the inner over [i]. *)
Definition advected (n i j i' j' : Z) : bool :=
  interior n i' j' && ((j' <? j) || ((j' =? j) && (i' <? i))).

(** The state [g] differs from [f] in the array [d] at most. *)
Definition same_except (d : buffer2) (g f : Fluid (R := R)) : Prop :=
  size g = size f /\ dt g = dt f /\ iter g = iter f /\
  diff g = diff f /\ visc g = visc f /\
  forall v, v <> d -> read2 v g = read2 v f.

(** The state of [advect d d0] from [f] under a zero velocity when its
    loops stand at cell [(i, j)]: the cells written so far hold the
    value of [d0], the others the value [d] had. *)
Definition advect_progress (d d0 : buffer2) (f : Fluid (R := R)) (i j : Z)
  (g : Fluid (R := R)) : Prop :=
  same_except d g f /\
  forall i' j', 0 <= i' < size f -> 0 <= j' < size f ->
    get (read2 d g) i' j'
    = if advected (size f) i j i' j' then get (read2 d0 f) i' j'
      else get (read2 d f) i' j'.

End AdvectVocabulary.

Section DiffuseVocabulary.

Context {R : Type} {num : Num R}.

(** The branch of [diffuse] for a coefficient that is not zero. *)
Definition diffuse_solve (x x0 : table) (diff : R) (f : Fluid (R := R))
  : Fluid (R := R) :=
  let a := fmul (fmul (fmul (dt f) diff) (of_int (size f - 2)))
                (of_int (size f - 2)) in
  lin_solve x x0 a (fadd (of_int 1) (fmul (of_int 6) a)) f.

(** [len(table.shape)] *)
Definition ndim (tb : table) : Z :=
  match tb with
  | Arr2 _ => 2
  | Arr3 _ => 3
  end.

End DiffuseVocabulary.

(** * The components as the specification words them *)

Section SpecWords.

Context {R : Type} {num : Num R}.

(** LinearSolver: the value of an interior cell after one sweep,
    [(x0[i,j] + a*(x[i-1,j]+x[i+1,j]+x[i,j-1]+x[i,j+1])) / c], read
    from the arrays [x] and [x0] as they are before the sweep. *)
Definition jacobi_cell (a c : R) (x x0 : plane) (i j : Z) : R :=
  fdiv (fadd (get x0 i j)
             (fmul a (fadd (fadd (fadd (get x (i - 1) j) (get x (i + 1) j))
                                 (get x i (j - 1)))
                           (get x i (j + 1)))))
       c.

(** LinearSolver: one Jacobi sweep, every interior cell at once from the
    state before the sweep, then BoundaryEnforcer. *)
Definition LinearSolver_sweep (x x0 : table) (a c : R) (f : Fluid) : Fluid :=
  set_boundaries x
    (write x
       (map2 (fun xk x0k => set_interior (size f) xk (jacobi_cell a c xk x0k))
             (read x f) (read x0 f))
       f).

(** LinearSolver: exactly [solverIterations] sweeps. *)
Definition LinearSolver (x x0 : table) (a c : R) (f : Fluid) : Fluid :=
  Nat.iter (Z.to_nat (iter f)) (LinearSolver_sweep x x0 a c) f.

(** Projector, step 1:
    [-0.5 * ((velo_x[i+1,j]-velo_x[i-1,j]) + (velo_y[i,j+1]-velo_y[i,j-1])) / size]. *)
Definition divergence_cell (n : Z) (vx vy : plane) (i j : Z) : R :=
  fdiv (fmul (fneg half)
             (fadd (fsub (get vx (i + 1) j) (get vx (i - 1) j))
                   (fsub (get vy i (j + 1)) (get vy i (j - 1)))))
       (of_int n).

(** Projector, step 4, for the first axis:
    [velo_x[i,j] - 0.5*(p[i+1,j]-p[i-1,j])*size]. *)
Definition gradient_x_cell (n : Z) (vx p : plane) (i j : Z) : R :=
  fsub (get vx i j)
       (fmul (fmul half (fsub (get p (i + 1) j) (get p (i - 1) j)))
             (of_int n)).

(** Projector, step 4, for the second axis. *)
Definition gradient_y_cell (n : Z) (vy p : plane) (i j : Z) : R :=
  fsub (get vy i j)
       (fmul (fmul half (fsub (get p i (j + 1)) (get p i (j - 1))))
             (of_int n)).

(** Projector, steps 1 and 2: the divergence in the interior cells of
    [div], [p] reset to zero, BoundaryEnforcer on both. *)
Definition Projector_setup (velo_x velo_y p div : buffer2) (f : Fluid)
  : Fluid :=
  let n := size f in
  let f := write2 div (set_interior n (read2 div f)
             (divergence_cell n (read2 velo_x f) (read2 velo_y f))) f in
  let f := write2 p (full n (of_int 0)) f in
  let f := set_boundaries (Arr2 div) f in
  set_boundaries (Arr2 p) f.

(** Projector, step 3: the pressure solve. *)
Definition Projector_solve (p div : buffer2) (f : Fluid) : Fluid :=
  LinearSolver (Arr2 p) (Arr2 div) (of_int 1) (of_int 6) f.

(** Projector, step 4: the pressure gradient leaves the interior cells
    of the velocity. *)
Definition Projector_subtract (velo_x velo_y p : buffer2) (f : Fluid)
  : Fluid :=
  let n := size f in
  let f := write2 velo_x (set_interior n (read2 velo_x f)
             (gradient_x_cell n (read2 velo_x f) (read2 p f))) f in
  write2 velo_y (set_interior n (read2 velo_y f)
    (gradient_y_cell n (read2 velo_y f) (read2 p f))) f.

(** Projector, steps 1 to 4. *)
Definition Projector_steps (velo_x velo_y p div : buffer2) (f : Fluid)
  : Fluid :=
  Projector_subtract velo_x velo_y p
    (Projector_solve p div (Projector_setup velo_x velo_y p div f)).

End SpecWords.

(** * Example states *)

(** The state [__init__] builds, for given values of the attributes
    ([__init__] itself fixes [size = 50], [dt = 0.5], [iter = 8] and
    [diff = visc = 0]). *)
Definition fresh (n : Z) (dt_ : Qc) (iter_ : Z) (diff_ visc_ : Qc)
  : Fluid (R := Qc) :=
  mkFluid n dt_ iter_ diff_ visc_
    (full n (of_int 0)) (full n (of_int 0))
    (mkVfield (full n (of_int 0)) (full n (of_int 0)))
    (mkVfield (full n (of_int 0)) (full n (of_int 0))).

(** [v[i, j] += amount] *)
Definition inject (v : buffer2) (i j : Z) (amount : Qc) (f : Fluid (R := Qc))
  : Fluid (R := Qc) :=
  write2 v (set_cell (size f) (read2 v f) i j
              (fadd (get (read2 v f) i j) amount)) f.

(** The cells of an array, as fractions. *)
Definition cells (t : plane (R := Qc)) : list (list Q) := map (map this) t.

(** A grid with one interior cell whose velocity points ten cells
    against the first axis. *)
Definition state_fast_flow : Fluid (R := Qc) :=
  inject (view self_velo ax0) 1 1 (of_int (-10))
    (fresh 3 half 8 (of_int 0) (of_int 0)).

(** A grid with one interior cell and the value 100 in the corner cell
    [(0, 0)] of [s]. *)
Definition state_corner_source : Fluid (R := Qc) :=
  inject self_s 0 0 (of_int 100) (fresh 3 half 8 (of_int 0) (of_int 0)).

(** A grid with one interior cell and the density 100 in the corner
    cell [(0, 0)]. *)
Definition state_corner_density : Fluid (R := Qc) :=
  inject self_density 0 0 (of_int 100)
    (fresh 3 half 8 (of_int 0) (of_int 0)).

(** A grid with one interior cell whose velocity is [[2, 2]]. *)
Definition state_stirred : Fluid (R := Qc) :=
  inject (view self_velo ax1) 1 1 (of_int 2)
    (inject (view self_velo ax0) 1 1 (of_int 2)
       (fresh 3 half 8 (of_int 0) (of_int 0))).

(** The scenario of the specification: [size = 10], [dt = 0.5], no
    diffusion, no viscosity, 8 iterations, density 100 at [(5, 5)]. *)
Definition state_scenario : Fluid (R := Qc) :=
  inject self_density 5 5 (of_int 100)
    (fresh 10 half 8 (of_int 0) (of_int 0)).

(** A four by four grid at rest with the diffusion rate 1, whose
    arrays [s] and [density] hold 3 in every cell. *)
Definition state_uniform : Fluid (R := Qc) :=
  write2 self_s (full 4 (of_int 3))
    (write2 self_density (full 4 (of_int 3))
       (fresh 4 half 8 (of_int 1) (of_int 0))).

(** A six by six grid with two moving cells: [velo[3, 2] = [2, 0]] and
    [velo[2, 3] = [0, 4]]. *)
Definition state_two_jets : Fluid (R := Qc) :=
  inject (view self_velo ax1) 2 3 (of_int 4)
    (inject (view self_velo ax0) 3 2 (of_int 2)
       (fresh 6 half 8 (of_int 0) (of_int 0))).

(** * The rest of the class *)

Section Diagnostics.

Context {R : Type} {num : Num R}.

(** ** [__init__] *)


(** ** [vector_divergence] *)

(** [np.gradient] along an axis of length three with unit spacing, at
    position [k]: one-sided differences at the two ends, the central
    difference [(c - a) / 2] in the middle.  (numpy also divides the
    one-sided differences by the spacing [1.0], which changes no
    value.) *)
Definition gradient3 (a b c : R) (k : Z) : R :=
  if k =? 0 then fsub b a
  else if k =? 1 then fdiv (fsub c a) (of_int 2)
  else fsub c b.

(** [(np.gradient(w[:, :, 0], axis=0) + np.gradient(w[:, :, 1], axis=1))[r, c]]
    for the window [w = velo[y-1:y+2, x-1:x+2]]. *)
Definition window_cell (v : vfield) (y x r c : Z) : R :=
  fadd (gradient3 (get (vf0 v) (y - 1) (x - 1 + c))
                  (get (vf0 v) y (x - 1 + c))
                  (get (vf0 v) (y + 1) (x - 1 + c)) r)
       (gradient3 (get (vf1 v) (y - 1 + r) (x - 1))
                  (get (vf1 v) (y - 1 + r) x)
                  (get (vf1 v) (y - 1 + r) (x + 1)) c).

(** The [.sum()] of that three by three array, row after row (numpy
    may add the nine numbers in another order, which changes the value
    by rounding only). *)
Definition window_sum (v : vfield) (y x : Z) : R :=
  fold_left (fun acc r =>
    fold_left (fun acc c => fadd acc (window_cell v y x r c)) (range 0 3) acc)
    (range 0 3) (of_int 0).

Definition vector_divergence (f : Fluid (R := R)) : plane :=
  let n := size f in
  let divergence_map := full n (of_int 0) in
  fold_left (fun divergence_map x =>
    fold_left (fun divergence_map y =>
      set_cell n divergence_map y x (window_sum (velo f) y x))
      (range 1 (n - 2)) divergence_map)
    (range 1 (n - 2)) divergence_map.

(** [t.sum()] over a whole array of shape [(n, n)]. *)
Definition sum_all (n : Z) (t : plane) : R :=
  fold_left (fun acc i =>
    fold_left (fun acc j => fadd acc (get t i j)) (range 0 n) acc)
    (range 0 n) (of_int 0).

(** ** What [advect] computes for one cell *)

(** The back-traced coordinates [x] and [y] of cell [(i, j)], before
    the clamp. *)
Definition trace_x (velocity : buffer3) (f : Fluid (R := R)) (i j : Z) : R :=
  fsub (of_int i)
       (fmul (fmul (dt f) (of_int (size f - 2)))
             (get (vf0 (read3 velocity f)) i j)).

Definition trace_y (velocity : buffer3) (f : Fluid (R := R)) (i j : Z) : R :=
  fsub (of_int j)
       (fmul (fmul (dt f) (of_int (size f - 2)))
             (get (vf1 (read3 velocity f)) i j)).

(** numpy accepts the four indices [i0], [i0 + 1], [j0], [j0 + 1] that
    cell [(i, j)] uses. *)
Definition cell_in_bounds (velocity : buffer3) (f : Fluid (R := R))
  (i j : Z) : bool :=
  let n := size f in
  let i0 := floor (clamp n (trace_x velocity f i j)) in
  let j0 := floor (clamp n (trace_y velocity f i j)) in
  in_bounds n i0 && in_bounds n (i0 + 1) &&
  in_bounds n j0 && in_bounds n (j0 + 1).

(** The bilinear interpolation of [d0] at the clamped back-traced
    point of cell [(i, j)]. *)
Definition advect_value (d0 : buffer2) (velocity : buffer3)
  (f : Fluid (R := R)) (i j : Z) : R :=
  let n := size f in
  let x := clamp n (trace_x velocity f i j) in
  let y := clamp n (trace_y velocity f i j) in
  let i0 := floor x in
  let j0 := floor y in
  let s1 := fsub x (of_int i0) in
  let s0 := fsub (of_int 1) s1 in
  let t1 := fsub y (of_int j0) in
  let t0 := fsub (of_int 1) t1 in
  let at_ := fun a b => get (read2 d0 f) (wrap n a) (wrap n b) in
  fadd (fmul s0 (fadd (fmul t0 (at_ i0 j0)) (fmul t1 (at_ i0 (j0 + 1)))))
       (fmul s1 (fadd (fmul t0 (at_ (i0 + 1) j0))
                      (fmul t1 (at_ (i0 + 1) (j0 + 1))))).


(** The attributes that no method assigns. *)
Definition same_config (g f : Fluid (R := R)) : Prop :=
  size g = size f /\ dt g = dt f /\ iter g = iter f /\
  diff g = diff f /\ visc g = visc f.

(** The cells that the loops of [vector_divergence] have written when
    they stand at column [x] and row [y]: the outer loop runs over
    [x], the inner over [y], both over [range(1, size - 2)]. *)
Definition diverged (n x y x' y' : Z) : bool :=
  (1 <=? y') && (y' <? n - 2) && (1 <=? x') &&
  ((x' <? x) || ((x' =? x) && (y' <? y))).

(** The call [diffuse(x, x0, diff)] divides by no zero: for a non-zero
    [diff] it has [lin_solve] compute [1 / c] with [c = 1 + 6 * a]. *)
Definition diffuse_defined (f : Fluid (R := R)) (diff : R) : bool :=
  if fne diff (of_int 0) then
    let a := fmul (fmul (fmul (dt f) diff) (of_int (size f - 2)))
                  (of_int (size f - 2)) in
    fne (fadd (of_int 1) (fmul (of_int 6) a)) (of_int 0)
  else true.

(** Every interior cell passes the test [ok]. *)
Definition all_interior (n : Z) (ok : Z -> Z -> bool) : bool :=
  forallb (fun j => forallb (fun i => ok i j) (range 1 (n - 1)))
    (range 1 (n - 1)).

End Diagnostics.

(** [total_divergence]: [np.abs(self.vector_divergence).sum()], on
    exact rationals. *)
Definition total_divergence (f : Fluid (R := Qc)) : Qc :=
  sum_all (size f) (map (map Qcabs) (vector_divergence f)).

(** * Facts about ranges and tabulated arrays *)

Lemma range_length lo hi : length (range lo hi) = Z.to_nat (hi - lo).
Proof. unfold range. now rewrite length_map, length_seq. Qed.

Lemma nth_range lo hi k d :
  (k < Z.to_nat (hi - lo))%nat -> nth k (range lo hi) d = lo + Z.of_nat k.
Proof.
  intros Hk. unfold range.
  rewrite nth_indep with (d' := lo + Z.of_nat 0)
    by (now rewrite length_map, length_seq).
  rewrite (map_nth (fun k => lo + Z.of_nat k)), seq_nth by assumption.
  reflexivity.
Qed.

Lemma in_range lo hi k : In k (range lo hi) <-> lo <= k < hi.
Proof.
  unfold range. rewrite in_map_iff. split.
  - intros [x [<- Hx]]. apply in_seq in Hx. lia.
  - intros Hk. exists (Z.to_nat (k - lo)). split; [lia|].
    apply in_seq. lia.
Qed.

Lemma range_snoc lo hi : lo <= hi -> range lo (hi + 1) = range lo hi ++ [hi].
Proof.
  intros H. unfold range.
  replace (Z.to_nat (hi + 1 - lo)) with (Z.to_nat (hi - lo) + 1)%nat by lia.
  rewrite seq_app, map_app. simpl. do 3 f_equal. lia.
Qed.

Lemma range_empty lo hi : hi <= lo -> range lo hi = [].
Proof.
  intros H. unfold range. replace (Z.to_nat (hi - lo)) with 0%nat by lia.
  reflexivity.
Qed.

Section ArrayFacts.

Context {R : Type} {num : Num R}.

Lemma get_tabulate n (g : Z -> Z -> R) i j :
  0 <= i < n -> 0 <= j < n -> get (tabulate n g) i j = g i j.
Proof.
  intros Hi Hj. unfold get, tabulate.
  rewrite nth_indep with (d' := map (g 0) (range 0 n))
    by (rewrite length_map, range_length; lia).
  rewrite (map_nth (fun i => map (g i) (range 0 n)) (range 0 n) 0).
  rewrite nth_range by lia.
  rewrite nth_indep with (d' := g (0 + Z.of_nat (Z.to_nat i)) 0)
    by (rewrite length_map, range_length; lia).
  rewrite map_nth, nth_range by lia.
  f_equal; lia.
Qed.

Lemma tabulate_ext n (g g' : Z -> Z -> R) :
  (forall i j, 0 <= i < n -> 0 <= j < n -> g i j = g' i j) ->
  tabulate n g = tabulate n g'.
Proof.
  intros H. unfold tabulate. apply map_ext_in. intros i Hi.
  apply map_ext_in. intros j Hj.
  apply in_range in Hi, Hj. apply H; lia.
Qed.

End ArrayFacts.

(** * Facts about the store *)

Section StoreFacts.

Context {R : Type} {num : Num R}.

Implicit Types (f : Fluid (R := R)) (t : plane (R := R)).

Lemma buffer3_eq_dec (b b' : buffer3) : {b = b'} + {b <> b'}.
Proof. decide equality. Qed.

Lemma buffer2_eq_dec (v v' : buffer2) : {v = v'} + {v <> v'}.
Proof. decide equality; [decide equality | apply buffer3_eq_dec]. Qed.

Lemma read2_write2 v t f : read2 v (write2 v t f) = t.
Proof. destruct v as [| |[] []]; reflexivity. Qed.

Lemma read2_write2_other v v' t f :
  v <> v' -> read2 v' (write2 v t f) = read2 v' f.
Proof.
  intros Hv. destruct v as [| |[] []], v' as [| |[] []];
    try reflexivity; congruence.
Qed.

Lemma write2_write2 v t t' f : write2 v t (write2 v t' f) = write2 v t f.
Proof. destruct v as [| |[] []]; reflexivity. Qed.

Lemma write2_read2 v f : write2 v (read2 v f) f = f.
Proof. destruct f as [? ? ? ? ? ? ? [] []], v as [| |[] []]; reflexivity. Qed.

Lemma read3_write3 b w f : read3 b (write3 b w f) = w.
Proof. destruct b; reflexivity. Qed.

Lemma write3_write3 b w w' f : write3 b w (write3 b w' f) = write3 b w f.
Proof. destruct b; reflexivity. Qed.

Lemma size_write3 b w f : size (write3 b w f) = size f.
Proof. destruct b; reflexivity. Qed.

Lemma size_write2 v t f : size (write2 v t f) = size f.
Proof. destruct v as [| |[] []]; reflexivity. Qed.

Lemma iter_write2 v t f : iter (write2 v t f) = iter f.
Proof. destruct v as [| |[] []]; reflexivity. Qed.

Lemma dt_write2 v t f : dt (write2 v t f) = dt f.
Proof. destruct v as [| |[] []]; reflexivity. Qed.

Lemma diff_write2 v t f : diff (write2 v t f) = diff f.
Proof. destruct v as [| |[] []]; reflexivity. Qed.

Lemma visc_write2 v t f : visc (write2 v t f) = visc f.
Proof. destruct v as [| |[] []]; reflexivity. Qed.

(** [set_boundaries] through [enforce]. *)
Lemma set_boundaries_Arr2 v f :
  set_boundaries (Arr2 v) f
  = write2 v (enforce (size f) keep keep (read2 v f)) f.
Proof. reflexivity. Qed.

Lemma set_boundaries_Arr3 b f :
  set_boundaries (Arr3 b) f
  = write3 b (mkVfield (enforce (size f) keep fneg (vf0 (read3 b f)))
                       (enforce (size f) fneg keep (vf1 (read3 b f)))) f.
Proof. reflexivity. Qed.

End StoreFacts.

(** * Facts about [set_boundaries] *)

(** Case analysis on the integer tests of a goal. *)
Ltac split_tests :=
  repeat match goal with
  | |- context [?a =? ?b] => destruct (Z.eqb_spec a b); try lia
  | |- context [?a <? ?b] => destruct (Z.ltb_spec a b); try lia
  | |- context [?a <=? ?b] => destruct (Z.leb_spec a b); try lia
  end.

Section BoundaryFacts.

Context {R : Type} {num : Num R}.

Implicit Types (f : Fluid (R := R)) (t : plane (R := R)).

Lemma wrap_m1 n : wrap n (-1) = n - 1.
Proof. unfold wrap. change (-1 <? 0) with true. cbv iota. lia. Qed.

Lemma wrap_m2 n : wrap n (-2) = n - 2.
Proof. unfold wrap. change (-2 <? 0) with true. cbv iota. lia. Qed.

Lemma wrap_nonneg n k : 0 <= k -> wrap n k = k.
Proof. intros Hk. unfold wrap. split_tests. Qed.

Lemma get_set_col n t c g i j :
  0 <= i < n -> 0 <= j < n ->
  get (set_col n t c g) i j = if j =? wrap n c then g i else get t i j.
Proof. intros Hi Hj. unfold set_col. now rewrite get_tabulate. Qed.

Lemma get_set_row n t r g i j :
  0 <= i < n -> 0 <= j < n ->
  get (set_row n t r g) i j = if i =? wrap n r then g j else get t i j.
Proof. intros Hi Hj. unfold set_row. now rewrite get_tabulate. Qed.

Lemma get_set_cell n t r c v i j :
  0 <= i < n -> 0 <= j < n ->
  get (set_cell n t r c v) i j
  = if (i =? wrap n r) && (j =? wrap n c) then v else get t i j.
Proof. intros Hi Hj. unfold set_cell. now rewrite get_tabulate. Qed.

Lemma get_set_interior n t g i j :
  0 <= i < n -> 0 <= j < n ->
  get (set_interior n t g) i j = if interior n i j then g i j else get t i j.
Proof. intros Hi Hj. unfold set_interior. now rewrite get_tabulate. Qed.

Lemma shaped_tabulate n (g : Z -> Z -> R) : shaped n (tabulate n g).
Proof.
  unfold shaped. apply tabulate_ext. intros i j Hi Hj.
  now rewrite get_tabulate.
Qed.

Lemma shaped_ext n t t' :
  shaped n t -> shaped n t' ->
  (forall i j, 0 <= i < n -> 0 <= j < n -> get t i j = get t' i j) ->
  t = t'.
Proof.
  intros Ht Ht' H. rewrite Ht, Ht'. now apply tabulate_ext.
Qed.

Lemma near_interior n k : 3 <= n -> 0 <= k < n -> 1 <= near n k < n - 1.
Proof. intros Hn Hk. unfold near. split_tests. Qed.

Lemma near_fixed n k : 1 <= k < n - 1 -> near n k = k.
Proof. intros Hk. unfold near. split_tests. Qed.

Lemma on_edge_interior n k : 1 <= k < n - 1 -> on_edge n k = false.
Proof. intros Hk. unfold on_edge. split_tests; reflexivity. Qed.

Lemma get_edges n sc sr t i j :
  3 <= n -> 0 <= i < n -> 0 <= j < n ->
  get (edges n sc sr t) i j = edge_value n sc sr t i j.
Proof.
  intros Hn Hi Hj. unfold edges, edge_value, near, on_edge.
  rewrite wrap_m2.
  rewrite !get_set_row, !get_set_col by lia.
  rewrite wrap_m1, !(wrap_nonneg n (k := 0)) by lia.
  split_tests; reflexivity.
Qed.

Lemma get_corners n t i j :
  3 <= n -> 0 <= i < n -> 0 <= j < n ->
  get (corners n t) i j
  = if on_edge n i && on_edge n j
    then fmul half (fadd (get t (near n i) j) (get t i (near n j)))
    else get t i j.
Proof.
  intros Hn Hi Hj. unfold corners, near, on_edge.
  rewrite wrap_m2, wrap_m1.
  rewrite !get_set_cell by lia.
  rewrite wrap_m1, !(wrap_nonneg n (k := 0)) by lia.
  split_tests; simpl; try reflexivity; subst; reflexivity.
Qed.

End BoundaryFacts.

Section EnforceFacts.

Context {R : Type} {num : Num R}.

Implicit Types (f : Fluid (R := R)) (t : plane (R := R)).

Lemma get_enforce n sc sr t i j :
  3 <= n -> 0 <= i < n -> 0 <= j < n ->
  get (enforce n sc sr t) i j = enforced_value n sc sr t i j.
Proof.
  intros Hn Hi Hj. unfold enforce, enforced_value.
  rewrite get_corners by assumption.
  pose proof (near_interior Hn Hi). pose proof (near_interior Hn Hj).
  rewrite !get_edges by lia. reflexivity.
Qed.

Lemma shaped_enforce n sc sr t : shaped n (enforce n sc sr t).
Proof. unfold enforce, corners, set_cell. apply shaped_tabulate. Qed.

Lemma enforced_value_interior n sc sr t i j :
  1 <= i < n - 1 -> 1 <= j < n - 1 ->
  enforced_value n sc sr t i j = get t i j.
Proof.
  intros Hi Hj. unfold enforced_value, edge_value.
  rewrite !on_edge_interior, !near_fixed by assumption. reflexivity.
Qed.

(** [set_boundaries] leaves the interior cells alone. *)
Lemma get_enforce_interior n sc sr t i j :
  1 <= i < n - 1 -> 1 <= j < n - 1 ->
  get (enforce n sc sr t) i j = get t i j.
Proof.
  intros Hi Hj. rewrite get_enforce by lia.
  now apply enforced_value_interior.
Qed.

Lemma edge_value_ext n sc sr t t' i j :
  3 <= n -> 0 <= i < n -> 0 <= j < n ->
  (forall i j, 1 <= i < n - 1 -> 1 <= j < n - 1 -> get t i j = get t' i j) ->
  edge_value n sc sr t i j = edge_value n sc sr t' i j.
Proof.
  intros Hn Hi Hj H. unfold edge_value.
  rewrite H by (now apply near_interior). reflexivity.
Qed.

(** The result of [set_boundaries] is a function of the interior cells. *)
Lemma enforce_ext n sc sr t t' :
  3 <= n ->
  (forall i j, 1 <= i < n - 1 -> 1 <= j < n - 1 -> get t i j = get t' i j) ->
  enforce n sc sr t = enforce n sc sr t'.
Proof.
  intros Hn H. apply shaped_ext with (n := n); try apply shaped_enforce.
  intros i j Hi Hj. rewrite !get_enforce by assumption.
  unfold enforced_value.
  pose proof (near_interior Hn Hi). pose proof (near_interior Hn Hj).
  rewrite !(@edge_value_ext n sc sr t t') by (assumption || lia).
  reflexivity.
Qed.

Lemma enforce_idempotent n sc sr t :
  3 <= n -> enforce n sc sr (enforce n sc sr t) = enforce n sc sr t.
Proof.
  intros Hn. apply enforce_ext; [assumption|].
  intros i j Hi Hj. now apply get_enforce_interior.
Qed.

Lemma size_set_boundaries tb f : size (set_boundaries tb f) = size f.
Proof.
  destruct tb.
  - rewrite set_boundaries_Arr2. apply size_write2.
  - rewrite set_boundaries_Arr3. apply size_write3.
Qed.

Lemma set_boundaries_idempotent_aux tb f :
  3 <= size f ->
  set_boundaries tb (set_boundaries tb f) = set_boundaries tb f.
Proof.
  intros Hn. destruct tb as [v | b].
  - rewrite (set_boundaries_Arr2 v (set_boundaries (Arr2 v) f)).
    rewrite size_set_boundaries, set_boundaries_Arr2.
    rewrite read2_write2, write2_write2.
    now rewrite enforce_idempotent.
  - rewrite (set_boundaries_Arr3 b (set_boundaries (Arr3 b) f)).
    rewrite size_set_boundaries, set_boundaries_Arr3.
    rewrite read3_write3, write3_write3. cbn [vf0 vf1].
    now rewrite !enforce_idempotent.
Qed.

End EnforceFacts.

(** * Boundary enforcement: claims C5 and C10 *)

Section BoundaryClaims.

Context {R : Type} {num : Num R}.

Implicit Types (f : Fluid (R := R)) (t : plane (R := R)).

(** C5.  [set_boundaries] is idempotent: on a grid with an interior
    ([3 <= size]), for a 2d array and for an array of vectors of any
    contents, and for any arithmetic on the cells, enforcing the
    boundaries a second time leaves the whole state as the first
    enforcement left it. *)
Theorem set_boundaries_idempotent (tb : table) (f : Fluid (R := R)) :
  3 <= size f ->
  set_boundaries tb (set_boundaries tb f) = set_boundaries tb f.
Proof. apply set_boundaries_idempotent_aux. Qed.

(** C10.  After [set_boundaries] on an array of vectors, a boundary cell
    that is not a corner holds, in the component along the axis that
    crosses its wall, the negation of the cell one step inward, and in
    the other component a copy of it.  Component [k] of a velocity is
    the displacement along array axis [k] (so [advect] uses it): the
    walls [[:, 0]] and [[:, -1]] are crossed by component 1 (the
    horizontal one in the plot, where they are the left and the right
    wall), the walls [[0, :]] and [[-1, :]] by component 0. *)
Theorem set_boundaries_reflects (b : buffer3) (f : Fluid (R := R)) (k : Z) :
  3 <= size f -> 1 <= k < size f - 1 ->
  let n := size f in
  let before := read3 b f in
  let after := read3 b (set_boundaries (Arr3 b) f) in
  (get (vf1 after) k 0 = fneg (get (vf1 before) k 1) /\
   get (vf0 after) k 0 = get (vf0 before) k 1) /\
  (get (vf1 after) k (n - 1) = fneg (get (vf1 before) k (n - 2)) /\
   get (vf0 after) k (n - 1) = get (vf0 before) k (n - 2)) /\
  (get (vf0 after) 0 k = fneg (get (vf0 before) 1 k) /\
   get (vf1 after) 0 k = get (vf1 before) 1 k) /\
  (get (vf0 after) (n - 1) k = fneg (get (vf0 before) (n - 2) k) /\
   get (vf1 after) (n - 1) k = get (vf1 before) (n - 2) k).
Proof.
  intros Hn Hk n before after. subst after before n.
  rewrite set_boundaries_Arr3, read3_write3. cbn [vf0 vf1].
  rewrite !get_enforce by lia.
  unfold enforced_value, edge_value, on_edge, near, keep.
  repeat split; split_tests; reflexivity.
Qed.

End BoundaryClaims.

(** * The linear solver: claim C4 *)

Section SolverFacts.

Context {R : Type} {num : Num R}.

Implicit Types (f : Fluid (R := R)) (t : plane (R := R)).

Lemma fold_left_ignore {A B : Type} (g : A -> A) (l : list B) (a : A) :
  fold_left (fun acc _ => g acc) l a = Nat.iter (length l) g a.
Proof.
  revert a. induction l as [|b l IH]; intros a; [reflexivity|].
  cbn [fold_left length]. rewrite IH. symmetry. apply Nat.iter_succ_r.
Qed.

Lemma size_write tb ts f : size (write tb ts f) = size f.
Proof.
  unfold write. revert f.
  induction (combine (planes tb) ts) as [|[v t] l IH]; intros f;
    [reflexivity|].
  cbn [fold_left fst snd]. rewrite IH. apply size_write2.
Qed.

Lemma iter_write tb ts f : iter (write tb ts f) = iter f.
Proof.
  unfold write. revert f.
  induction (combine (planes tb) ts) as [|[v t] l IH]; intros f;
    [reflexivity|].
  cbn [fold_left fst snd]. rewrite IH. apply iter_write2.
Qed.

Lemma iter_set_boundaries tb f : iter (set_boundaries tb f) = iter f.
Proof.
  destruct tb as [v|b].
  - rewrite set_boundaries_Arr2. apply iter_write2.
  - rewrite set_boundaries_Arr3. now destruct b.
Qed.

(** [set_boundaries] changes no interior cell of any array. *)
Lemma get_set_boundaries_interior tb v f i j :
  1 <= i < size f - 1 -> 1 <= j < size f - 1 ->
  get (read2 v (set_boundaries tb f)) i j = get (read2 v f) i j.
Proof.
  intros Hi Hj. destruct tb as [u|b].
  - rewrite set_boundaries_Arr2.
    destruct (buffer2_eq_dec u v) as [->|Hne].
    + rewrite read2_write2. now apply get_enforce_interior.
    + now rewrite read2_write2_other.
  - rewrite set_boundaries_Arr3.
    destruct v as [| |b' k]; [now destruct b | now destruct b |].
    destruct b, b', k; cbn [read2 read3 write3 velo velo0 vf0 vf1];
      try reflexivity; now apply get_enforce_interior.
Qed.

Lemma read2_write_in tb ts f v t :
  In (v, t) (combine (planes tb) ts) -> read2 v (write tb ts f) = t.
Proof.
  unfold write. destruct tb as [u|b]; cbn [planes].
  - destruct ts as [|t0 ts]; cbn [combine In fold_left fst snd];
      [contradiction|].
    intros [[= <- <-]|[]]. apply read2_write2.
  - destruct ts as [|t0 [|t1 ts]]; cbn [combine In fold_left fst snd];
      [contradiction| |].
    + intros [[= <- <-]|[]]. apply read2_write2.
    + intros [[= <- <-]|[[= <- <-]|[]]].
      * rewrite read2_write2_other by discriminate. apply read2_write2.
      * apply read2_write2.
Qed.

(** After a sweep an interior cell holds the value computed from the
    state before the sweep. *)
Lemma sweep_interior (x x0 : table) (a c : R) f v v0 i j :
  In (v, v0) (combine (planes x) (planes x0)) ->
  1 <= i < size f - 1 -> 1 <= j < size f - 1 ->
  get (read2 v (LinearSolver_sweep x x0 a c f)) i j
  = jacobi_cell a c (read2 v f) (read2 v0 f) i j.
Proof.
  intros Hin Hi Hj. unfold LinearSolver_sweep.
  assert (Hint : interior (size f) i j = true)
    by (unfold interior; split_tests; reflexivity).
  rewrite get_set_boundaries_interior by (now rewrite size_write).
  rewrite read2_write_in
    with (t := set_interior (size f) (read2 v f)
                 (jacobi_cell a c (read2 v f) (read2 v0 f))).
  - rewrite get_set_interior by lia. now rewrite Hint.
  - unfold read.
    destruct x as [u|b], x0 as [u0|b0]; cbn [planes combine In] in Hin;
      cbn [planes map map2 combine In];
      repeat (destruct Hin as [Hin|Hin]; [injection Hin as <- <-|]);
      try contradiction; auto.
Qed.

End SolverFacts.

(** * Facts about the exact rationals *)

(** Unfold the operations of [Qc_num]. *)
Ltac qc_ops :=
  cbn [of_int half fadd fsub fmul fdiv fneg fne flt floor Qc_num] in *.

Lemma of_int_0 : of_int 0 = 0%Qc.
Proof. apply Qc_is_canon. reflexivity. Qed.

Lemma of_int_1 : of_int 1 = 1%Qc.
Proof. apply Qc_is_canon. reflexivity. Qed.

Lemma fold_left_ext {A B : Type} (g g' : A -> B -> A) (l : list B) (a : A) :
  (forall a b, g a b = g' a b) -> fold_left g l a = fold_left g' l a.
Proof.
  intros H. revert a. induction l as [|b l IH]; intros a; [reflexivity|].
  cbn [fold_left]. now rewrite H, IH.
Qed.

Lemma map2_ext {A B C : Type} (g g' : A -> B -> C) (l : list A) (l' : list B) :
  (forall a b, g a b = g' a b) -> map2 g l l' = map2 g' l l'.
Proof.
  intros H. revert l'. induction l as [|a l IH]; intros [|b l'];
    try reflexivity.
  cbn [map2]. now rewrite H, IH.
Qed.

Lemma relax_jacobi n (a c : Qc) (x x0 : plane) :
  c <> 0%Qc ->
  relax n a (fdiv (of_int 1) c) x x0 = set_interior n x (jacobi_cell a c x x0).
Proof.
  intros Hc. unfold relax, set_interior. apply tabulate_ext.
  intros i j _ _. destruct (interior n i j); [|reflexivity].
  unfold jacobi_cell. rewrite of_int_1. qc_ops. now field.
Qed.

Lemma lin_solve_LinearSolver (x x0 : table) (a c : Qc) (f : Fluid) :
  c <> 0%Qc -> lin_solve x x0 a c f = LinearSolver x x0 a c f.
Proof.
  intros Hc. unfold lin_solve, LinearSolver.
  rewrite fold_left_ext
    with (g' := fun acc (_ : Z) => LinearSolver_sweep x x0 a c acc).
  - rewrite fold_left_ignore, range_length. do 2 f_equal. lia.
  - intros g _. unfold LinearSolver_sweep. do 2 f_equal.
    apply map2_ext. intros xk x0k. now apply relax_jacobi.
Qed.

(** C4.  [lin_solve] performs exactly [iter] sweeps, whatever the
    fields hold.  A sweep gives every interior cell of [x] the value
    [(x0[i,j] + a*(x[i-1,j]+x[i+1,j]+x[i,j-1]+x[i,j+1])) / c] computed
    from the state [g] before the sweep, so no cell sees a neighbour
    that the same sweep has updated, and the state a sweep leaves has
    its boundaries enforced: enforcing them again changes nothing. *)
Theorem lin_solve_jacobi_sweeps (x x0 : table) (a c : Qc) (f : Fluid) :
  c <> 0%Qc -> 3 <= size f ->
  lin_solve x x0 a c f
  = Nat.iter (Z.to_nat (iter f)) (LinearSolver_sweep x x0 a c) f /\
  (forall g v v0 i j,
     size g = size f ->
     In (v, v0) (combine (planes x) (planes x0)) ->
     1 <= i < size f - 1 -> 1 <= j < size f - 1 ->
     get (read2 v (LinearSolver_sweep x x0 a c g)) i j
     = fdiv (fadd (get (read2 v0 g) i j)
                  (fmul a (fadd (fadd (fadd (get (read2 v g) (i - 1) j)
                                            (get (read2 v g) (i + 1) j))
                                      (get (read2 v g) i (j - 1)))
                                (get (read2 v g) i (j + 1)))))
            c) /\
  (forall g,
     size g = size f ->
     set_boundaries x (LinearSolver_sweep x x0 a c g)
     = LinearSolver_sweep x x0 a c g).
Proof.
  intros Hc Hn. split; [|split].
  - now apply lin_solve_LinearSolver.
  - intros g v v0 i j Hg Hin Hi Hj.
    rewrite sweep_interior with (v0 := v0) by (rewrite ?Hg; assumption).
    reflexivity.
  - intros g Hg. unfold LinearSolver_sweep.
    apply set_boundaries_idempotent_aux.
    now rewrite size_write, Hg.
Qed.

(** * The projection: claims C3 and C6 *)

Section ProjectFacts.

Context {R : Type} {num : Num R}.

Implicit Types (f : Fluid (R := R)) (t : plane (R := R)).

Lemma set_interior_ext n t (g g' : Z -> Z -> R) :
  (forall i j, 1 <= i < n - 1 -> 1 <= j < n - 1 -> g i j = g' i j) ->
  set_interior n t g = set_interior n t g'.
Proof.
  intros H. unfold set_interior. apply tabulate_ext. intros i j _ _.
  unfold interior. split_tests; cbn [andb]; try reflexivity.
  apply H; lia.
Qed.

Lemma size_LinearSolver_sweep x x0 (a c : R) f :
  size (LinearSolver_sweep x x0 a c f) = size f.
Proof.
  unfold LinearSolver_sweep. now rewrite size_set_boundaries, size_write.
Qed.

Lemma size_iter_sweep x x0 (a c : R) k f :
  size (Nat.iter k (LinearSolver_sweep x x0 a c) f) = size f.
Proof.
  induction k as [|k IH]; [reflexivity|].
  now rewrite Nat.iter_succ, size_LinearSolver_sweep.
Qed.

Lemma size_LinearSolver x x0 (a c : R) f :
  size (LinearSolver x x0 a c f) = size f.
Proof. apply size_iter_sweep. Qed.

Lemma read2_set_boundaries_other u v f :
  u <> v -> read2 v (set_boundaries (Arr2 u) f) = read2 v f.
Proof.
  intros Hne. rewrite set_boundaries_Arr2. now apply read2_write2_other.
Qed.

Lemma read2_sweep_other u x0 (a c : R) v f :
  u <> v -> read2 v (LinearSolver_sweep (Arr2 u) x0 a c f) = read2 v f.
Proof.
  intros Hne. unfold LinearSolver_sweep.
  rewrite read2_set_boundaries_other by assumption.
  unfold write, read. cbn [planes map].
  destruct (map (fun v1 => read2 v1 f) (planes x0)) as [|t0 ts];
    cbn [map2 combine fold_left fst snd]; [reflexivity|].
  now apply read2_write2_other.
Qed.

Lemma read2_LinearSolver_other u x0 (a c : R) v f :
  u <> v -> read2 v (LinearSolver (Arr2 u) x0 a c f) = read2 v f.
Proof.
  intros Hne. unfold LinearSolver.
  induction (Z.to_nat (iter f)) as [|k IH]; [reflexivity|].
  now rewrite Nat.iter_succ, read2_sweep_other.
Qed.

End ProjectFacts.

Create Rewrite HintDb store.

#[local] Hint Rewrite @size_write2 @size_write3 @size_set_boundaries
  @size_write @size_LinearSolver @size_LinearSolver_sweep @read2_write2
  : store.

(** Two buffers known to be distinct. *)
Ltac ne := solve [assumption | apply not_eq_sym; assumption].

Lemma of_int_6_nonzero : of_int 6 <> 0%Qc.
Proof. intros H. apply (f_equal this) in H. discriminate H. Qed.

Lemma project_Projector (velo_x velo_y p div : buffer2) (f : Fluid (R := Qc)) :
  project velo_x velo_y p div f
  = set_boundaries (Arr3 self_velo) (Projector_steps velo_x velo_y p div f).
Proof.
  unfold project, Projector_steps, Projector_subtract, Projector_solve,
    Projector_setup.
  cbv zeta. rewrite lin_solve_LinearSolver by apply of_int_6_nonzero.
  autorewrite with store.
  match goal with
  | |- context [write2 div (set_interior ?n ?t ?g) f] =>
      rewrite (@set_interior_ext _ _ n t g
                 (divergence_cell n (read2 velo_x f) (read2 velo_y f)))
  end.
  - reflexivity.
  - intros i j _ _. unfold divergence_cell. qc_ops. unfold Qcdiv. ring.
Qed.

Lemma size_Projector_setup (velo_x velo_y p div : buffer2)
  (f : Fluid (R := Qc)) :
  size (Projector_setup velo_x velo_y p div f) = size f.
Proof. unfold Projector_setup. now autorewrite with store. Qed.

Lemma read2_Projector_setup_other (velo_x velo_y p div v : buffer2)
  (f : Fluid (R := Qc)) :
  p <> v -> div <> v ->
  read2 v (Projector_setup velo_x velo_y p div f) = read2 v f.
Proof.
  intros Hp Hd. unfold Projector_setup.
  now rewrite !read2_set_boundaries_other, !read2_write2_other.
Qed.

(** C3.  [project] is the Projector of the specification, for any four
    distinct buffers and any contents: it stores in the interior cells
    of [div] the divergence
    [-0.5 * ((velo_x[i+1,j]-velo_x[i-1,j]) + (velo_y[i,j+1]-velo_y[i,j-1])) / size],
    makes [p] the zero array, enforces the boundaries of [div] and of
    [p], solves [p] by [iter] sweeps of the LinearSolver with [a = 1]
    and [c = 6] against [div], and leaves in every interior cell of the
    velocity [velo_x[i,j] - 0.5*(p[i+1,j]-p[i-1,j])*size] and
    [velo_y[i,j] - 0.5*(p[i,j+1]-p[i,j-1])*size] for the solved [p]. *)
Theorem project_is_Projector (velo_x velo_y p div : buffer2)
  (f : Fluid (R := Qc)) :
  3 <= size f ->
  velo_x <> velo_y -> velo_x <> p -> velo_x <> div ->
  velo_y <> p -> velo_y <> div -> p <> div ->
  let n := size f in
  let vx := read2 velo_x f in
  let vy := read2 velo_y f in
  let setup := Projector_setup velo_x velo_y p div f in
  let solved :=
    Nat.iter (Z.to_nat (iter f))
      (LinearSolver_sweep (Arr2 p) (Arr2 div) (of_int 1) (of_int 6)) setup in
  let P := read2 p solved in
  let after := project velo_x velo_y p div f in
  (forall i j, 1 <= i < n - 1 -> 1 <= j < n - 1 ->
     get (read2 div setup) i j
     = (- half * ((get vx (i + 1) j - get vx (i - 1) j)
                  + (get vy i (j + 1) - get vy i (j - 1))) / of_int n)%Qc) /\
  read2 div setup = enforce n keep keep (read2 div setup) /\
  read2 p setup = enforce n keep keep (full n (of_int 0)) /\
  after = set_boundaries (Arr3 self_velo)
            (Projector_subtract velo_x velo_y p solved) /\
  (forall i j, 1 <= i < n - 1 -> 1 <= j < n - 1 ->
     get (read2 velo_x after) i j
     = (get vx i j - half * (get P (i + 1) j - get P (i - 1) j) * of_int n)%Qc
     /\
     get (read2 velo_y after) i j
     = (get vy i j - half * (get P i (j + 1) - get P i (j - 1)) * of_int n)%Qc).
Proof.
  intros Hn Hxy Hxp Hxd Hyp Hyd Hpd n vx vy setup solved P after.
  assert (Hiter : iter setup = iter f).
  { subst setup. unfold Projector_setup.
    now rewrite !iter_set_boundaries, !iter_write2. }
  assert (Hsolved : solved = Projector_solve p div setup).
  { subst solved. unfold Projector_solve, LinearSolver. now rewrite Hiter. }
  assert (Hsize : size solved = n).
  { rewrite Hsolved. unfold Projector_solve.
    rewrite size_LinearSolver. apply size_Projector_setup. }
  assert (Hafter : after = set_boundaries (Arr3 self_velo)
                             (Projector_subtract velo_x velo_y p solved)).
  { subst after. rewrite project_Projector, Hsolved. reflexivity. }
  assert (Hvx : read2 velo_x solved = vx).
  { rewrite Hsolved. unfold Projector_solve.
    rewrite read2_LinearSolver_other by ne.
    apply read2_Projector_setup_other; ne. }
  assert (Hvy : read2 velo_y solved = vy).
  { rewrite Hsolved. unfold Projector_solve.
    rewrite read2_LinearSolver_other by ne.
    apply read2_Projector_setup_other; ne. }
  assert (Hdv : read2 div setup
                = enforce n keep keep
                    (set_interior n (read2 div f) (divergence_cell n vx vy))).
  { subst setup. unfold Projector_setup. cbv zeta.
    rewrite read2_set_boundaries_other by ne.
    rewrite set_boundaries_Arr2. autorewrite with store.
    rewrite read2_write2_other by ne.
    autorewrite with store. reflexivity. }
  split; [|split; [|split; [|split]]].
  - intros i j Hi Hj. rewrite Hdv.
    rewrite get_enforce_interior, get_set_interior by lia.
    unfold interior. split_tests. cbn [andb].
    unfold divergence_cell. reflexivity.
  - rewrite Hdv at 2. rewrite Hdv.
    symmetry. apply enforce_idempotent. lia.
  - subst setup. unfold Projector_setup. cbv zeta.
    rewrite set_boundaries_Arr2. autorewrite with store.
    rewrite read2_set_boundaries_other by ne.
    autorewrite with store. reflexivity.
  - exact Hafter.
  - intros i j Hi Hj. rewrite Hafter.
    assert (Hint : interior n i j = true)
      by (unfold interior; split_tests; reflexivity).
    rewrite !get_set_boundaries_interior
      by (unfold Projector_subtract; autorewrite with store; lia).
    unfold Projector_subtract. cbv zeta. autorewrite with store.
    rewrite Hsize. split.
    + rewrite read2_write2_other by ne. autorewrite with store.
      rewrite get_set_interior by lia. rewrite Hint, Hvx. reflexivity.
    + rewrite get_set_interior by lia. rewrite Hint.
      rewrite !read2_write2_other by ne. rewrite Hvy. reflexivity.
Qed.

(** * Facts about the clamp and the floor on exact rationals *)

Lemma this_of_int z : (this (of_int z) == inject_Z z)%Q.
Proof. cbn [of_int Qc_num Q2Qc this]. apply Qred_correct. Qed.

Lemma this_half : (this half == 1 # 2)%Q.
Proof. cbn [half Qc_num Q2Qc this]. apply Qred_correct. Qed.

Lemma floor_of_int z : floor (of_int z) = z.
Proof.
  cbn [floor Qc_num]. rewrite (Qfloor_comp _ _ (this_of_int z)).
  apply Qfloor_Z.
Qed.

Lemma Qc_lt_bool_false (a b : Qc) : (b <= a)%Qc -> Qc_lt_bool a b = false.
Proof.
  intros H. unfold Qc_lt_bool.
  destruct (a ?= b)%Qc eqn:E; try reflexivity.
  apply Qclt_alt in E. now apply Qcle_not_lt in H.
Qed.

Lemma half_le_of_int z : 1 <= z -> (half <= of_int z)%Qc.
Proof.
  intros Hz. unfold Qcle.
  rewrite (Qle_comp _ _ this_half _ _ (this_of_int z)).
  unfold Qle. cbn [Qnum Qden inject_Z]. lia.
Qed.

Lemma of_int_le_plus_half n z : z <= n -> (of_int z <= of_int n + half)%Qc.
Proof.
  intros Hz. unfold Qcle, Qcplus. cbn [Q2Qc this].
  assert (E : (Qred (this (of_int n) + this half) == inject_Z n + (1 # 2))%Q).
  { rewrite Qred_correct. apply Qplus_comp; [apply this_of_int|apply this_half]. }
  rewrite (Qle_comp _ _ (this_of_int z) _ _ E).
  unfold Qle, Qplus. cbn [Qnum Qden inject_Z]. lia.
Qed.

(** An integer coordinate inside the grid is its own clamp. *)
Lemma clamp_of_int n z : 1 <= z <= n -> clamp n (of_int z) = of_int z.
Proof.
  intros Hz. unfold clamp. cbn [flt fadd Qc_num].
  rewrite (Qc_lt_bool_false (half_le_of_int (z := z) ltac:(lia))).
  now rewrite (Qc_lt_bool_false (of_int_le_plus_half (n := n) (z := z) ltac:(lia))).
Qed.

Lemma half_le_plus_half n : 0 <= n -> (half <= of_int n + half)%Qc.
Proof.
  intros Hn. unfold Qcle, Qcplus. cbn [Q2Qc this].
  assert (E : (Qred (this (of_int n) + this half) == inject_Z n + (1 # 2))%Q).
  { rewrite Qred_correct. apply Qplus_comp; [apply this_of_int|apply this_half]. }
  rewrite (Qle_comp _ _ this_half _ _ E).
  unfold Qle, Qplus. cbn [Qnum Qden inject_Z]. lia.
Qed.

(** * Loops *)

Lemma for_range_invariant {A : Type} (I : Z -> A -> Prop) (lo hi : Z)
  (body : Z -> A -> result A) (a : A) :
  lo <= hi -> I lo a ->
  (forall k a, lo <= k < hi -> I k a ->
     exists a', body k a = Ok a' /\ I (k + 1) a') ->
  exists a', for_range lo hi body a = Ok a' /\ I hi a'.
Proof.
  intros Hle H0 Hstep.
  assert (H : forall m : nat, lo + Z.of_nat m <= hi ->
            exists a', for_range lo (lo + Z.of_nat m) body a = Ok a' /\
                       I (lo + Z.of_nat m) a').
  { induction m as [|m IH]; intros Hm.
    - exists a. unfold for_range. rewrite range_empty by lia.
      split; [reflexivity|]. now replace (lo + Z.of_nat 0) with lo by lia.
    - destruct IH as [a1 [Hrun Ha1]]; [lia|].
      destruct (Hstep (lo + Z.of_nat m) a1) as [a2 [Hbody Ha2]];
        [lia|assumption|].
      exists a2. unfold for_range in *.
      replace (lo + Z.of_nat (S m)) with (lo + Z.of_nat m + 1) by lia.
      rewrite range_snoc, fold_left_app by lia.
      rewrite Hrun. cbn [fold_left bind]. now split. }
  destruct (H (Z.to_nat (hi - lo))) as [a' Ha']; [lia|].
  replace (lo + Z.of_nat (Z.to_nat (hi - lo))) with hi in Ha' by lia.
  now exists a'.
Qed.

Section SameExcept.

Context {R : Type} {num : Num R}.

Implicit Types (f g : Fluid (R := R)) (t : plane (R := R)).

Lemma same_except_refl d f : same_except d f f.
Proof. unfold same_except. tauto. Qed.

Lemma same_except_write2_l d t g f :
  same_except d g f -> same_except d (write2 d t g) f.
Proof.
  intros (Hs & Hdt & Hit & Hdf & Hvs & Hv). unfold same_except.
  rewrite size_write2, dt_write2, iter_write2, diff_write2, visc_write2.
  repeat split; try assumption.
  intros v Hne. rewrite read2_write2_other by auto. now apply Hv.
Qed.

Lemma same_except_write2 d t g f :
  same_except d g f -> write2 d t g = write2 d t f.
Proof.
  intros (Hs & Hdt & Hit & Hdf & Hvs & Hv).
  pose proof (Hv self_s) as H1. pose proof (Hv self_density) as H2.
  pose proof (Hv (view self_velo ax0)) as H3.
  pose proof (Hv (view self_velo ax1)) as H4.
  pose proof (Hv (view self_velo0 ax0)) as H5.
  pose proof (Hv (view self_velo0 ax1)) as H6.
  destruct f as [n1 a1 b1 c1 e1 s1 d1 [x1 y1] [z1 w1]].
  destruct g as [n2 a2 b2 c2 e2 s2 d2 [x2 y2] [z2 w2]].
  cbn in Hs, Hdt, Hit, Hdf, Hvs, H1, H2, H3, H4, H5, H6. subst.
  destruct d as [| |[] []]; cbn;
    repeat match goal with
    | H : ?v <> ?d -> _ |- _ =>
        first [ specialize (H ltac:(discriminate)) | clear H ]
    end; subst; reflexivity.
Qed.

End SameExcept.

(** * Advection under a zero velocity *)

(** Unfold the arithmetic of [Qc_num], not its constants. *)
Ltac qc_arith := cbn [fadd fsub fmul fdiv fneg Qc_num].

Lemma lookup_in_range {R : Type} {num : Num R} n (t : plane (R := R)) i j :
  0 <= i < n -> 0 <= j < n -> lookup n t i j = Ok (get t i j).
Proof.
  intros Hi Hj. unfold lookup, in_bounds, wrap. split_tests. reflexivity.
Qed.

Lemma advect_cell_zero (d d0 : buffer2) (velocity : buffer3) (i j : Z)
  (g : Fluid (R := Qc)) :
  1 <= i < size g - 1 -> 1 <= j < size g - 1 ->
  get (vf0 (read3 velocity g)) i j = 0%Qc ->
  get (vf1 (read3 velocity g)) i j = 0%Qc ->
  advect_cell d d0 velocity i j g
  = Ok (write2 d (set_cell (size g) (read2 d g) i j (get (read2 d0 g) i j)) g).
Proof.
  intros Hi Hj H0 H1. unfold advect_cell. cbv zeta. rewrite H0, H1.
  assert (E : forall (k : Z) (c : Qc), fsub (of_int k) (fmul c 0%Qc) = of_int k)
    by (intros; qc_arith; ring).
  rewrite !E, !clamp_of_int, !floor_of_int by lia.
  rewrite !lookup_in_range by lia. cbn [bind].
  do 3 f_equal. rewrite of_int_1. qc_arith. ring.
Qed.

Section AdvectZero.

Variables (d d0 : buffer2) (velocity : buffer3) (f : Fluid (R := Qc)).

Hypothesis size_ok : 3 <= size f.
Hypothesis velocity_zero : read3 velocity f = zero_vfield (size f).

Lemma zero_get n i j :
  0 <= i < n -> 0 <= j < n -> get (full n (of_int 0)) i j = 0%Qc.
Proof.
  intros Hi Hj. unfold full. rewrite get_tabulate by assumption.
  apply of_int_0.
Qed.

Lemma advect_progress_d0 i j g i' j' :
  advect_progress d d0 f i j g ->
  0 <= i' < size f -> 0 <= j' < size f ->
  get (read2 d0 g) i' j' = get (read2 d0 f) i' j'.
Proof.
  intros [(_ & _ & _ & _ & _ & Hv) Hd] Hi Hj.
  destruct (buffer2_eq_dec d0 d) as [->|Hne].
  - rewrite Hd by assumption. now destruct (advected _ _ _ _ _).
  - now rewrite Hv.
Qed.

(** The velocity that the loops read at the cell where they stand is
    still zero, also when the target [d] is a component of the driving
    field: the cell has not been written yet. *)
Lemma advect_progress_velocity k i j g :
  1 <= i < size f - 1 -> 1 <= j < size f - 1 ->
  advect_progress d d0 f i j g ->
  get (read2 (view velocity k) g) i j = 0%Qc.
Proof.
  intros Hi Hj [(_ & _ & _ & _ & _ & Hv) Hd].
  assert (Hf : get (read2 (view velocity k) f) i j = 0%Qc).
  { cbn [read2]. rewrite velocity_zero.
    destruct k; cbn [zero_vfield vf0 vf1]; apply zero_get; lia. }
  destruct (buffer2_eq_dec (view velocity k) d) as [E|Hne].
  - rewrite E, Hd by lia.
    replace (advected (size f) i j i j) with false
      by (unfold advected, interior; split_tests; reflexivity).
    rewrite <- E. exact Hf.
  - rewrite Hv by exact Hne. exact Hf.
Qed.

Lemma advect_progress_cell i j g :
  1 <= i < size f - 1 -> 1 <= j < size f - 1 ->
  advect_progress d d0 f i j g ->
  exists g', advect_cell d d0 velocity i j g = Ok g' /\
             advect_progress d d0 f (i + 1) j g'.
Proof.
  intros Hi Hj Hg.
  pose proof (advect_progress_d0 Hg (i' := i) (j' := j)
                ltac:(lia) ltac:(lia)) as Hd0.
  pose proof (advect_progress_velocity ax0 Hi Hj Hg) as Hv0.
  pose proof (advect_progress_velocity ax1 Hi Hj Hg) as Hv1.
  destruct Hg as [Hsame Hd].
  pose proof Hsame as (Hs & _ & _ & _ & _ & Hv).
  eexists. split.
  - apply advect_cell_zero; rewrite ?Hs; try assumption.
  - split; [now apply same_except_write2_l|].
    intros i' j' Hi' Hj'. rewrite read2_write2, Hs, Hd0.
    rewrite get_set_cell, Hd by assumption.
    rewrite !wrap_nonneg by lia.
    unfold advected, interior.
    split_tests; cbn [andb orb]; subst; reflexivity.
Qed.

Lemma advect_progress_shift j g :
  advect_progress d d0 f (size f - 1) j g ->
  advect_progress d d0 f 1 (j + 1) g.
Proof.
  intros [Hsame Hd]. split; [assumption|].
  intros i' j' Hi' Hj'. rewrite Hd by assumption.
  replace (advected (size f) 1 (j + 1) i' j')
    with (advected (size f) (size f - 1) j i' j'); [reflexivity|].
  unfold advected, interior. split_tests; reflexivity.
Qed.

Lemma advect_progress_column j g :
  1 <= j < size f - 1 ->
  advect_progress d d0 f 1 j g ->
  exists g',
    for_range 1 (size f - 1)
      (fun i => advect_cell d d0 velocity i j) g = Ok g' /\
    advect_progress d d0 f 1 (j + 1) g'.
Proof.
  intros Hj Hg.
  destruct (for_range_invariant
              (fun i g => advect_progress d d0 f i j g) (lo := 1)
              (hi := size f - 1)
              (fun i => advect_cell d d0 velocity i j) g)
    as [g' [Hrun Hg']]; [lia|assumption| |].
  - intros i h Hi Hh. now apply advect_progress_cell.
  - exists g'. split; [assumption|]. now apply advect_progress_shift.
Qed.

Lemma advect_progress_start : advect_progress d d0 f 1 1 f.
Proof.
  split; [apply same_except_refl|].
  intros i' j' Hi' Hj'.
  replace (advected (size f) 1 1 i' j') with false; [reflexivity|].
  unfold advected, interior. split_tests; reflexivity.
Qed.

(** Under a zero velocity [advect] copies the interior of [d0] to [d]
    and enforces the boundaries of [d]. *)
Lemma advect_zero :
  advect d d0 velocity f
  = Ok (write2 d (enforce (size f) keep keep (read2 d0 f)) f).
Proof.
  unfold advect.
  destruct (for_range_invariant
              (fun j g => advect_progress d d0 f 1 j g) (lo := 1)
              (hi := size f - 1)
              (fun j => for_range 1 (size f - 1)
                 (fun i => advect_cell d d0 velocity i j)) f)
    as [g [Hrun [Hsame Hd]]]; [lia|apply advect_progress_start| |].
  - intros j h Hj Hh. now apply advect_progress_column.
  - rewrite Hrun. cbn [bind]. apply (f_equal Ok).
    rewrite set_boundaries_Arr2.
    pose proof Hsame as (Hs & _).
    rewrite Hs, (same_except_write2 _ Hsame).
    apply (f_equal (fun t => write2 d t f)).
    apply enforce_ext; [assumption|].
    intros i j Hi Hj. rewrite Hd by lia.
    replace (advected (size f) 1 (size f - 1) i j) with true; [reflexivity|].
    unfold advected, interior. split_tests; reflexivity.
Qed.

End AdvectZero.

(** * The advection: claims C8, C1 and C2 *)

(** C8, as the code has it.  Under an all-zero driving velocity, on a
    grid with an interior, for any target [d] and any [d0], a component
    of the driving field included, [advect] completes and leaves [d]
    equal to [d0] at every interior cell.  The boundary cells of [d]
    hold what BoundaryEnforcer derives from that interior, so that [d]
    equals [d0] at every cell when [d0] was already unchanged by
    BoundaryEnforcer.  No other array changes. *)
Theorem advect_zero_velocity (d d0 : buffer2) (velocity : buffer3)
  (f : Fluid (R := Qc)) :
  3 <= size f ->
  read3 velocity f = zero_vfield (size f) ->
  exists f',
    advect d d0 velocity f = Ok f' /\
    (forall i j, 1 <= i < size f - 1 -> 1 <= j < size f - 1 ->
       get (read2 d f') i j = get (read2 d0 f) i j) /\
    read2 d f' = enforce (size f) keep keep (read2 d0 f) /\
    (set_boundaries (Arr2 d0) f = f -> read2 d f' = read2 d0 f) /\
    (forall v, v <> d -> read2 v f' = read2 v f).
Proof.
  intros Hn Hz. eexists.
  split; [exact (@advect_zero d d0 velocity f Hn Hz)|].
  rewrite read2_write2. repeat split.
  - intros i j Hi Hj. now apply get_enforce_interior.
  - intros Hfix. apply (f_equal (read2 d0)) in Hfix.
    now rewrite set_boundaries_Arr2, read2_write2 in Hfix.
  - intros v Hv. now apply read2_write2_other.
Qed.

(** C8 fails as stated: with the value 100 in the corner [(0, 0)] of
    [d0] and a zero velocity, [advect] leaves 0 in that corner of [d]. *)
Lemma advect_zero_velocity_counterexample :
  ~ (forall (d d0 : buffer2) (velocity : buffer3) (f f' : Fluid (R := Qc)),
       read3 velocity f = zero_vfield (size f) ->
       advect d d0 velocity f = Ok f' ->
       forall i j, 0 <= i < size f -> 0 <= j < size f ->
         get (read2 d f') i j = get (read2 d0 f) i j).
Proof.
  intros H.
  specialize (H self_density self_s self_velo state_corner_source _
                eq_refl
                (@advect_zero self_density self_s self_velo
                   state_corner_source ltac:(cbn; lia) eq_refl)
                0 0 ltac:(cbn; lia) ltac:(cbn; lia)).
  apply (f_equal this) in H. vm_compute in H. discriminate H.
Qed.

(** C1, the defect.  On a valid configuration ([size = 3], [dt = 0.5],
    no diffusion, no viscosity, 8 iterations) with the velocity
    [[-10, 0]] in the interior cell, [step] raises [IndexError]: the
    traced coordinate [1 + 0.5 * 1 * 10 = 6] is clamped to
    [size + 0.5 = 3.5], its floor 3 is no index of an axis of length 3. *)
Theorem step_raises_index_error : step state_fast_flow = IndexError.
Proof. vm_compute. reflexivity. Qed.

(** C2, the defect.  On the same valid configuration, with the
    velocity [[-10, 0]] in the interior cell, [step] does not run its
    six stages: the diffusion of the velocity and the first projection
    leave [[-10, 0]] in the interior cell of [velo0], the advection of the
    first velocity component by [velo0], which opens the third stage,
    finds an index out of bounds and raises [IndexError], and the call
    ends there.  The advection of the second component, the second
    projection, the diffusion and the advection of the density are
    never reached. *)
Theorem step_stops_in_third_stage :
  let f2 := project (view self_velo0 ax0) (view self_velo0 ax1)
              (view self_velo ax0) (view self_velo ax1)
              (diffuse (Arr3 self_velo0) (Arr3 self_velo)
                 (visc state_fast_flow) state_fast_flow) in
  cells (vf0 (velo0 f2))
  = [[0 # 1; 0 # 1; 0 # 1]; [0 # 1; -10 # 1; 0 # 1]; [0 # 1; 0 # 1; 0 # 1]] /\
  cell_in_bounds self_velo0 f2 1 1 = false /\
  advect (view self_velo ax0) (view self_velo0 ax0) self_velo0 f2
  = IndexError /\
  step state_fast_flow = IndexError.
Proof. vm_compute. repeat split; reflexivity. Qed.

(** * The boundary pass of [project]: claim C6 *)

Section ProjectFrame.

Context {R : Type} {num : Num R}.

Implicit Types (f : Fluid (R := R)) (t : plane (R := R)).

Lemma size_lin_solve x x0 (a c : R) f : size (lin_solve x x0 a c f) = size f.
Proof.
  unfold lin_solve. generalize (range 0 (iter f)). intros l. revert f.
  induction l as [|k l IH]; intros f; [reflexivity|].
  cbn [fold_left]. rewrite IH. now rewrite size_set_boundaries, size_write.
Qed.

Lemma read2_lin_solve_other u x0 (a c : R) v f :
  u <> v -> read2 v (lin_solve (Arr2 u) x0 a c f) = read2 v f.
Proof.
  intros Hne. unfold lin_solve. generalize (range 0 (iter f)).
  intros l. revert f.
  induction l as [|k l IH]; intros f; [reflexivity|].
  cbn [fold_left]. rewrite IH.
  rewrite read2_set_boundaries_other by assumption.
  unfold write, read. cbn [planes map].
  destruct (map (fun v1 => read2 v1 f) (planes x0)) as [|t0 ts];
    cbn [map2 combine fold_left fst snd]; [reflexivity|].
  now apply read2_write2_other.
Qed.

(** The first call of [project] in [step] passes the components of
    [velo0] as the velocity and those of [velo] as scratch.  Its last
    statement enforces the boundaries of [self.velo]: the boundary
    cells of [velo0] stay as they were. *)
Lemma project_first_call_boundary (f : Fluid (R := R)) (i j : Z) :
  0 <= i < size f -> 0 <= j < size f -> interior (size f) i j = false ->
  let f' := project (view self_velo0 ax0) (view self_velo0 ax1)
                    (view self_velo ax0) (view self_velo ax1) f in
  get (vf0 (velo0 f')) i j = get (vf0 (velo0 f)) i j /\
  get (vf1 (velo0 f')) i j = get (vf1 (velo0 f)) i j.
Proof.
  intros Hi Hj Hint f'. subst f'. unfold project. cbv zeta.
  rewrite set_boundaries_Arr3.
  change (velo0 (write3 self_velo ?w ?g)) with (velo0 g).
  change (vf0 (velo0 ?g)) with (read2 (view self_velo0 ax0) g).
  change (vf1 (velo0 ?g)) with (read2 (view self_velo0 ax1) g).
  rewrite read2_write2, read2_write2_other, read2_write2 by discriminate.
  rewrite !get_set_interior, Hint by assumption.
  rewrite !read2_write2_other by discriminate.
  rewrite !read2_lin_solve_other, !read2_set_boundaries_other,
    !read2_write2_other by discriminate.
  split; reflexivity.
Qed.

End ProjectFrame.

(** C6, the defect.  In the first call of [project] that [step] makes,
    on a grid with one interior cell of velocity [[2, 2]], the
    velocity passed in is [velo0]; after the call its boundary cells
    are still zero, where BoundaryEnforcer on [velo0] would have put
    the reflected values. *)
Theorem project_first_call_skips_velo0 :
  let g := project (view self_velo0 ax0) (view self_velo0 ax1)
             (view self_velo ax0) (view self_velo ax1)
             (diffuse (Arr3 self_velo0) (Arr3 self_velo)
                (visc state_stirred) state_stirred) in
  cells (vf0 (velo0 g))
  = [[0 # 1; 0 # 1; 0 # 1]; [0 # 1; 2 # 1; 0 # 1]; [0 # 1; 0 # 1; 0 # 1]] /\
  cells (vf1 (velo0 g))
  = [[0 # 1; 0 # 1; 0 # 1]; [0 # 1; 2 # 1; 0 # 1]; [0 # 1; 0 # 1; 0 # 1]] /\
  cells (vf0 (velo0 (set_boundaries (Arr3 self_velo0) g)))
  = [[0 # 1; -2 # 1; 0 # 1]; [2 # 1; 2 # 1; 2 # 1]; [0 # 1; -2 # 1; 0 # 1]] /\
  cells (vf1 (velo0 (set_boundaries (Arr3 self_velo0) g)))
  = [[0 # 1; 2 # 1; 0 # 1]; [-2 # 1; 2 # 1; -2 # 1]; [0 # 1; 2 # 1; 0 # 1]].
Proof. vm_compute. repeat split; reflexivity. Qed.

(** * The diffusion: claim C9 *)

Lemma diffuse_zero_branch (x x0 : table) (f : Fluid (R := Qc)) :
  diffuse x x0 (of_int 0) f = write x (read x0 f) f.
Proof. reflexivity. Qed.

Lemma iter_idempotent {A : Type} (g : A -> A) (k : nat) (a : A) :
  g (g a) = g a -> (1 <= k)%nat -> Nat.iter k g a = g a.
Proof.
  intros Hg Hk. induction k as [|k IH]; [lia|].
  destruct k as [|k]; [reflexivity|].
  rewrite Nat.iter_succ, IH by lia. apply Hg.
Qed.

Lemma jacobi_cell_0_1 (x x0 : plane (R := Qc)) i j :
  jacobi_cell 0%Qc 1%Qc x x0 i j = get x0 i j.
Proof. unfold jacobi_cell. qc_arith. field. apply Q_apart_0_1. Qed.

Lemma enforce_set_interior n sc sr (t t' : plane (R := Qc)) g :
  3 <= n ->
  (forall i j, 1 <= i < n - 1 -> 1 <= j < n - 1 -> g i j = get t' i j) ->
  enforce n sc sr (set_interior n t g) = enforce n sc sr t'.
Proof.
  intros Hn Hg. apply enforce_ext; [assumption|].
  intros i j Hi Hj. rewrite get_set_interior by lia.
  unfold interior. split_tests. cbn [andb]. now apply Hg.
Qed.

(** A sweep with [a = 0] and [c = 1] copies [x0] to [x] and enforces
    the boundaries of [x]. *)
Lemma sweep_0_1_Arr2 v v0 (g : Fluid (R := Qc)) :
  3 <= size g ->
  LinearSolver_sweep (Arr2 v) (Arr2 v0) 0%Qc 1%Qc g
  = write2 v (enforce (size g) keep keep (read2 v0 g)) g.
Proof.
  intros Hn. unfold LinearSolver_sweep, write, read.
  cbn [planes map map2 combine fold_left fst snd].
  rewrite set_boundaries_Arr2, read2_write2, write2_write2, size_write2.
  apply (f_equal (fun t => write2 v t g)).
  apply enforce_set_interior; [assumption|].
  intros i j _ _. apply jacobi_cell_0_1.
Qed.

Lemma sweep_0_1_Arr3 b b0 (g : Fluid (R := Qc)) :
  3 <= size g ->
  LinearSolver_sweep (Arr3 b) (Arr3 b0) 0%Qc 1%Qc g
  = write3 b (mkVfield (enforce (size g) keep fneg (vf0 (read3 b0 g)))
                       (enforce (size g) fneg keep (vf1 (read3 b0 g)))) g.
Proof.
  intros Hn. unfold LinearSolver_sweep, write, read.
  cbn [planes map map2 combine fold_left fst snd].
  rewrite set_boundaries_Arr3, !size_write2.
  change (vf0 (read3 b ?h)) with (read2 (view b ax0) h).
  change (vf1 (read3 b ?h)) with (read2 (view b ax1) h).
  rewrite read2_write2, read2_write2_other, read2_write2 by discriminate.
  rewrite (@enforce_set_interior _ keep fneg _ (read2 (view b0 ax0) g))
    by (assumption || intros; apply jacobi_cell_0_1).
  rewrite (@enforce_set_interior _ fneg keep _ (read2 (view b0 ax1) g))
    by (assumption || intros; apply jacobi_cell_0_1).
  destruct b; reflexivity.
Qed.

Lemma read3_write3_other {R : Type} {num : Num R} b b' w
  (f : Fluid (R := R)) :
  b <> b' -> read3 b' (write3 b w f) = read3 b' f.
Proof. intros Hne. destruct b, b'; try reflexivity; congruence. Qed.

Lemma sweep_0_1_twice (x x0 : table) (g : Fluid (R := Qc)) :
  ndim x = ndim x0 -> 3 <= size g ->
  LinearSolver_sweep x x0 0%Qc 1%Qc (LinearSolver_sweep x x0 0%Qc 1%Qc g)
  = LinearSolver_sweep x x0 0%Qc 1%Qc g.
Proof.
  intros Hd Hn. destruct x as [v|b], x0 as [v0|b0]; try discriminate Hd.
  - rewrite (sweep_0_1_Arr2 v v0 g Hn).
    rewrite sweep_0_1_Arr2 by (now rewrite size_write2).
    rewrite size_write2, write2_write2.
    apply (f_equal (fun t => write2 v t g)).
    destruct (buffer2_eq_dec v v0) as [<-|Hne].
    + rewrite read2_write2. now apply enforce_idempotent.
    + now rewrite read2_write2_other.
  - rewrite (sweep_0_1_Arr3 b b0 g Hn).
    rewrite sweep_0_1_Arr3 by (now rewrite size_write3).
    rewrite size_write3, write3_write3.
    apply (f_equal (fun w => write3 b w g)).
    destruct (buffer3_eq_dec b b0) as [<-|Hne].
    + rewrite read3_write3. cbn [vf0 vf1].
      now rewrite !enforce_idempotent.
    + now rewrite read3_write3_other.
Qed.

(** With a zero coefficient the solver branch copies [x0] to [x] and
    enforces the boundaries of [x]. *)
Lemma diffuse_solve_zero (x x0 : table) (f : Fluid (R := Qc)) :
  ndim x = ndim x0 -> 3 <= size f -> 1 <= iter f ->
  diffuse_solve x x0 (of_int 0) f = set_boundaries x (write x (read x0 f) f).
Proof.
  intros Hd Hn Hit. unfold diffuse_solve. cbv zeta.
  assert (Ea : fmul (fmul (fmul (dt f) (of_int 0)) (of_int (size f - 2)))
                    (of_int (size f - 2)) = 0%Qc)
    by (rewrite of_int_0; qc_arith; ring).
  rewrite Ea.
  assert (Ec : fadd (of_int 1) (fmul (of_int 6) 0%Qc) = 1%Qc)
    by (rewrite of_int_1; qc_arith; ring).
  rewrite Ec, lin_solve_LinearSolver by apply Q_apart_0_1.
  unfold LinearSolver.
  rewrite iter_idempotent by (try apply sweep_0_1_twice; auto; lia).
  destruct x as [v|b], x0 as [v0|b0]; try discriminate Hd.
  - rewrite sweep_0_1_Arr2 by assumption.
    unfold write, read. cbn [planes map combine fold_left fst snd].
    now rewrite set_boundaries_Arr2, read2_write2, write2_write2, size_write2.
  - rewrite sweep_0_1_Arr3 by assumption.
    unfold write, read. cbn [planes map combine fold_left fst snd].
    rewrite set_boundaries_Arr3, !size_write2.
    destruct b; reflexivity.
Qed.

Lemma set_boundaries_copy_fixed (x x0 : table) (f : Fluid (R := Qc)) :
  ndim x = ndim x0 -> set_boundaries x0 f = f ->
  set_boundaries x (write x (read x0 f) f) = write x (read x0 f) f.
Proof.
  intros Hd Hfix. destruct x as [v|b], x0 as [v0|b0]; try discriminate Hd.
  - unfold write, read. cbn [planes map combine fold_left fst snd].
    rewrite set_boundaries_Arr2, read2_write2, write2_write2, size_write2.
    apply (f_equal (fun t => write2 v t f)).
    apply (f_equal (read2 v0)) in Hfix.
    now rewrite set_boundaries_Arr2, read2_write2 in Hfix.
  - unfold write, read. cbn [planes map combine fold_left fst snd].
    rewrite set_boundaries_Arr3, !size_write2.
    apply (f_equal (read3 b0)) in Hfix.
    rewrite set_boundaries_Arr3, read3_write3 in Hfix.
    pose proof (f_equal vf0 Hfix) as E0. pose proof (f_equal vf1 Hfix) as E1.
    cbn [vf0 vf1] in E0, E1.
    change (vf0 (read3 b ?h)) with (read2 (view b ax0) h).
    change (vf1 (read3 b ?h)) with (read2 (view b ax1) h).
    rewrite read2_write2, read2_write2_other, read2_write2 by discriminate.
    cbn [read2]. rewrite E0, E1.
    destruct b; reflexivity.
Qed.

(** How far the two branches of [diffuse] agree.  With the coefficient
    0, [diffuse] makes [x] equal to [x0] at every cell.  The solver
    branch run with the coefficient 0 (so [a = 0] and [c = 1], at least
    one iteration, a grid with an interior) yields that same state with
    the boundaries of [x] enforced: the two agree at every interior
    cell of every array, and at every cell only when the boundaries of
    [x0] were enforced already. *)
Lemma diffuse_branches_agree_inside (x x0 : table) (f : Fluid (R := Qc)) :
  ndim x = ndim x0 -> 3 <= size f -> 1 <= iter f ->
  read x (diffuse x x0 (of_int 0) f) = read x0 f /\
  diffuse_solve x x0 (of_int 0) f
  = set_boundaries x (diffuse x x0 (of_int 0) f) /\
  (forall v i j, 1 <= i < size f - 1 -> 1 <= j < size f - 1 ->
     get (read2 v (diffuse_solve x x0 (of_int 0) f)) i j
     = get (read2 v (diffuse x x0 (of_int 0) f)) i j) /\
  (set_boundaries x0 f = f ->
   diffuse_solve x x0 (of_int 0) f = diffuse x x0 (of_int 0) f).
Proof.
  intros Hd Hn Hit. rewrite diffuse_zero_branch.
  rewrite (diffuse_solve_zero x x0 f Hd Hn Hit).
  split; [|split; [reflexivity|split]].
  - destruct x as [v|b], x0 as [v0|b0]; try discriminate Hd;
      unfold write, read; cbn [planes map combine fold_left fst snd].
    + now rewrite read2_write2.
    + now rewrite read2_write2, read2_write2_other, read2_write2
        by discriminate.
  - intros v i j Hi Hj. apply get_set_boundaries_interior;
      now rewrite size_write.
  - intros Hfix. now apply set_boundaries_copy_fixed.
Qed.

(** C9, the defect.  The source comments the copy of its [else] branch
    as equivalent to [lin_solve] with [a = 0].  On a grid with one
    interior cell and the density 100 in the corner [(0, 0)], the copy
    that [diffuse] makes for the coefficient 0 puts 100 in the corner
    of [s]; the solver branch with the coefficient 0, that is
    [lin_solve] with [a = 0] and [c = 1], puts 0 there, as it ends
    every sweep with [set_boundaries]. *)
Theorem diffuse_copy_differs_from_solver :
  let f := state_corner_density in
  cells (read2 self_s (diffuse (Arr2 self_s) (Arr2 self_density) (of_int 0) f))
  = [[100 # 1; 0 # 1; 0 # 1]; [0 # 1; 0 # 1; 0 # 1]; [0 # 1; 0 # 1; 0 # 1]] /\
  cells (read2 self_s
           (lin_solve (Arr2 self_s) (Arr2 self_density) (of_int 0) (of_int 1)
              f))
  = [[0 # 1; 0 # 1; 0 # 1]; [0 # 1; 0 # 1; 0 # 1]; [0 # 1; 0 # 1; 0 # 1]] /\
  diffuse_solve (Arr2 self_s) (Arr2 self_density) (of_int 0) f
  = lin_solve (Arr2 self_s) (Arr2 self_density) (of_int 0) (of_int 1) f /\
  read2 self_s (diffuse_solve (Arr2 self_s) (Arr2 self_density) (of_int 0) f)
  <> read2 self_s (diffuse (Arr2 self_s) (Arr2 self_density) (of_int 0) f).
Proof.
  cbv zeta. split; [vm_compute; reflexivity|].
  split; [vm_compute; reflexivity|].
  split; [vm_compute; reflexivity|].
  intros H. apply (f_equal cells) in H. vm_compute in H. discriminate H.
Qed.

(** * A fluid at rest: claim C7 *)

Lemma range_cons lo hi : lo < hi -> range lo hi = lo :: range (lo + 1) hi.
Proof.
  intros H. unfold range.
  replace (Z.to_nat (hi - lo)) with (S (Z.to_nat (hi - (lo + 1)))) by lia.
  cbn [seq map]. f_equal; [lia|].
  rewrite <- seq_shift, map_map. apply map_ext. intros k. lia.
Qed.

Lemma range_split lo mid hi :
  lo <= mid <= hi -> range lo hi = range lo mid ++ range mid hi.
Proof.
  intros H.
  assert (E : forall m : nat, lo + Z.of_nat m <= hi ->
            range lo hi
            = range lo (lo + Z.of_nat m) ++ range (lo + Z.of_nat m) hi).
  { induction m as [|m IH]; intros Hm.
    - rewrite (range_empty (lo := lo) (hi := lo + Z.of_nat 0)) by lia.
      cbn [app]. f_equal. lia.
    - replace (lo + Z.of_nat (S m)) with (lo + Z.of_nat m + 1) by lia.
      rewrite range_snoc, <- app_assoc by lia. cbn [app].
      rewrite <- range_cons by lia. apply IH. lia. }
  specialize (E (Z.to_nat (mid - lo))).
  replace (lo + Z.of_nat (Z.to_nat (mid - lo))) with mid in E by lia.
  apply E. lia.
Qed.

Lemma write2_same {R : Type} {num : Num R} v (t : plane (R := R))
  (f : Fluid (R := R)) :
  read2 v f = t -> write2 v t f = f.
Proof. intros <-. apply write2_read2. Qed.

Arguments write2_same {R num v t f} _.

Lemma iter_fixed {A : Type} (g : A -> A) (k : nat) (a : A) :
  g a = a -> Nat.iter k g a = a.
Proof.
  intros Hg. induction k as [|k IH]; [reflexivity|].
  now rewrite Nat.iter_succ, IH.
Qed.

Arguments iter_fixed {A g} k {a} _.

Lemma enforce_zero n (sc sr : Qc -> Qc) :
  3 <= n -> sc 0%Qc = 0%Qc -> sr 0%Qc = 0%Qc ->
  enforce n sc sr (full n (of_int 0)) = full n (of_int 0).
Proof.
  intros Hn Hsc Hsr.
  apply shaped_ext with (n := n);
    [apply shaped_enforce | apply shaped_tabulate |].
  intros i j Hi Hj. rewrite get_enforce by assumption.
  pose proof (near_interior Hn Hi). pose proof (near_interior Hn Hj).
  assert (E : forall i j, 0 <= i < n -> 0 <= j < n ->
            edge_value n sc sr (full n (of_int 0)) i j = 0%Qc).
  { intros i' j' Hi' Hj'. unfold edge_value.
    pose proof (near_interior Hn Hi'). pose proof (near_interior Hn Hj').
    rewrite zero_get by lia.
    destruct (on_edge n i'), (on_edge n j'); congruence. }
  unfold enforced_value. rewrite !E, zero_get by lia.
  destruct (on_edge n i && on_edge n j); [|reflexivity].
  qc_arith. ring.
Qed.

Lemma fneg_zero : fneg 0%Qc = 0%Qc.
Proof. qc_arith. ring. Qed.

Lemma set_interior_zero n (g : Z -> Z -> Qc) :
  (forall i j, 1 <= i < n - 1 -> 1 <= j < n - 1 -> g i j = 0%Qc) ->
  set_interior n (full n (of_int 0)) g = full n (of_int 0).
Proof.
  intros Hg. unfold set_interior, full at 2. apply tabulate_ext.
  intros i j Hi Hj. unfold interior.
  split_tests; cbn [andb]; rewrite ?zero_get by lia;
    rewrite ?of_int_0; try reflexivity.
  apply Hg; lia.
Qed.

(** [project] leaves a state alone whose velocity, pressure and
    divergence arrays are all zero. *)
Lemma project_zero (velo_x velo_y p div : buffer2) (g : Fluid (R := Qc)) :
  3 <= size g ->
  read2 velo_x g = full (size g) (of_int 0) ->
  read2 velo_y g = full (size g) (of_int 0) ->
  read2 p g = full (size g) (of_int 0) ->
  read2 div g = full (size g) (of_int 0) ->
  velo g = zero_vfield (size g) ->
  project velo_x velo_y p div g = g.
Proof.
  intros Hn Hx Hy Hp Hd Hv. rewrite project_Projector.
  assert (Hsetup : Projector_setup velo_x velo_y p div g = g).
  { unfold Projector_setup. cbv zeta. rewrite Hx, Hy, Hd.
    rewrite set_interior_zero.
    2:{ intros i j Hi Hj. unfold divergence_cell.
        rewrite !zero_get by lia. qc_arith. unfold Qcdiv. ring. }
    rewrite (write2_same Hd), (write2_same Hp).
    rewrite (set_boundaries_Arr2 div g), Hd, enforce_zero, (write2_same Hd)
      by (assumption || reflexivity).
    now rewrite (set_boundaries_Arr2 p g), Hp, enforce_zero, (write2_same Hp)
      by (assumption || reflexivity). }
  assert (Hsweep : LinearSolver_sweep (Arr2 p) (Arr2 div) (of_int 1) (of_int 6) g
                   = g).
  { unfold LinearSolver_sweep, write, read.
    cbn [planes map map2 combine fold_left fst snd].
    rewrite Hp, Hd, set_interior_zero.
    2:{ intros i j Hi Hj. unfold jacobi_cell.
        rewrite !zero_get by lia. qc_arith. unfold Qcdiv. ring. }
    rewrite (write2_same Hp).
    now rewrite set_boundaries_Arr2, Hp, enforce_zero, (write2_same Hp)
      by (assumption || reflexivity). }
  unfold Projector_steps, Projector_solve, LinearSolver.
  rewrite Hsetup, (iter_fixed _ Hsweep).
  unfold Projector_subtract. cbv zeta. rewrite Hx, Hp.
  rewrite set_interior_zero.
  2:{ intros i j Hi Hj. unfold gradient_x_cell.
      rewrite !zero_get by lia. qc_arith. ring. }
  rewrite (write2_same Hx), Hy, Hp.
  rewrite set_interior_zero.
  2:{ intros i j Hi Hj. unfold gradient_y_cell.
      rewrite !zero_get by lia. qc_arith. ring. }
  rewrite (write2_same Hy).
  rewrite set_boundaries_Arr3. cbn [read3]. rewrite Hv.
  unfold zero_vfield at 1 2. cbn [vf0 vf1].
  rewrite !enforce_zero by (assumption || reflexivity || apply fneg_zero).
  fold (zero_vfield (R := Qc) (size g)). rewrite <- Hv.
  destruct g as [? ? ? ? ? ? ? [] []]. reflexivity.
Qed.

Lemma fold_left_fixed {A B : Type} (h : A -> B -> A) (l : list B) (a : A) :
  (forall k, In k l -> h a k = a) -> fold_left h l a = a.
Proof.
  induction l as [|b l IH]; intros H; [reflexivity|].
  cbn [fold_left]. rewrite H by (now left). apply IH.
  intros k Hk. apply H. now right.
Qed.

(** The sum over the interior of an array that is zero there except
    at one cell. *)
Lemma sum_interior_single n (t : plane (R := Qc)) (r c : Z) (v : Qc) :
  1 <= r < n - 1 -> 1 <= c < n - 1 ->
  (forall i j, 1 <= i < n - 1 -> 1 <= j < n - 1 ->
     get t i j = if (i =? r) && (j =? c) then v else 0%Qc) ->
  sum_interior n t = v.
Proof.
  intros Hr Hc Ht. unfold sum_interior.
  set (row := fun acc i =>
         fold_left (fun acc j => fadd acc (get t i j)) (range 1 (n - 1)) acc).
  assert (Hrow : forall i acc, 1 <= i < n - 1 ->
            row acc i = if i =? r then fadd acc v else acc).
  { intros i acc Hi. unfold row.
    rewrite (range_split (lo := 1) (mid := c) (hi := n - 1)) by lia.
    rewrite (range_cons (lo := c)) by lia.
    rewrite fold_left_app. cbn [fold_left].
    rewrite (fold_left_fixed _ (range 1 c)).
    2:{ intros j Hj. apply in_range in Hj. rewrite Ht by lia.
        split_tests; cbn [andb]; qc_arith; ring. }
    rewrite Ht by lia. rewrite Z.eqb_refl, andb_true_r.
    rewrite fold_left_fixed.
    2:{ intros j Hj. apply in_range in Hj. rewrite Ht by lia.
        split_tests; cbn [andb]; qc_arith; ring. }
    destruct (i =? r); [reflexivity|]. qc_arith. ring. }
  rewrite (range_split (lo := 1) (mid := r) (hi := n - 1)) by lia.
  rewrite (range_cons (lo := r)) by lia.
  rewrite fold_left_app. cbn [fold_left].
  rewrite (fold_left_fixed _ (range 1 r)).
  2:{ intros i Hi. apply in_range in Hi. rewrite Hrow by lia.
      split_tests; reflexivity. }
  rewrite Hrow, Z.eqb_refl by lia.
  rewrite fold_left_fixed.
  2:{ intros i Hi. apply in_range in Hi. rewrite Hrow by lia.
      split_tests; reflexivity. }
  rewrite of_int_0. qc_arith. ring.
Qed.

(** Under a zero velocity [advect] leaves a zero target at zero. *)
Lemma advect_zero_field (d d0 : buffer2) (velocity : buffer3)
  (g : Fluid (R := Qc)) :
  3 <= size g ->
  read3 velocity g = zero_vfield (size g) ->
  d <> view velocity ax0 -> d <> view velocity ax1 ->
  read2 d0 g = full (size g) (of_int 0) ->
  read2 d g = full (size g) (of_int 0) ->
  advect d d0 velocity g = Ok g.
Proof.
  intros Hn Hv H0 H1 Hd0 Hd.
  rewrite (@advect_zero d d0 velocity g) by assumption.
  rewrite Hd0, enforce_zero by (assumption || reflexivity).
  now rewrite (write2_same Hd).
Qed.

(** C7.  With no diffusion and no viscosity, an all-zero velocity and
    the density 100 in the cell [(5, 5)] of a grid in which that cell is
    interior ([size >= 7], so in the scenario with [size = 10]), for any
    time step and any number of iterations: [step] completes, the total
    density after it is exactly 100, hence within any tolerance, and the
    velocity is still zero everywhere. *)
Theorem step_at_rest_keeps_density (f : Fluid (R := Qc)) :
  7 <= size f ->
  diff f = of_int 0 -> visc f = of_int 0 ->
  velo f = zero_vfield (size f) ->
  density f = set_cell (size f) (full (size f) (of_int 0)) 5 5 (of_int 100) ->
  exists f',
    step f = Ok f' /\
    total_density f' = of_int 100 /\
    velo f' = zero_vfield (size f).
Proof.
  intros Hn Hdiff Hvisc Hvelo Hdens. unfold step. cbv zeta.
  rewrite Hvisc, diffuse_zero_branch.
  set (f1 := write (Arr3 self_velo0) (read (Arr3 self_velo) f) f).
  assert (Hs1 : size f1 = size f) by apply size_write.
  assert (Hv1 : velo f1 = zero_vfield (size f))
    by (subst f1; rewrite <- Hvelo; now destruct f).
  assert (Hw1 : velo0 f1 = zero_vfield (size f)).
  { subst f1. unfold write, read.
    cbn [planes map combine fold_left fst snd read2 read3].
    rewrite Hvelo. now destruct f. }
  assert (Hd1 : density f1 = density f) by (subst f1; now destruct f).
  assert (Hf1 : diff f1 = of_int 0) by (subst f1; rewrite <- Hdiff; now destruct f).
  assert (P1 : project (view self_velo0 ax0) (view self_velo0 ax1)
                 (view self_velo ax0) (view self_velo ax1) f1 = f1).
  { apply project_zero; rewrite ?Hs1; cbn [read2 read3];
      rewrite ?Hv1, ?Hw1; try reflexivity. lia. }
  rewrite P1.
  assert (A1 : advect (view self_velo ax0) (view self_velo0 ax0) self_velo0 f1
               = Ok f1).
  { apply advect_zero_field; rewrite ?Hs1; cbn [read2 read3];
      rewrite ?Hv1, ?Hw1; try reflexivity; try discriminate. lia. }
  rewrite A1. cbn [bind].
  assert (A2 : advect (view self_velo ax1) (view self_velo0 ax1) self_velo0 f1
               = Ok f1).
  { apply advect_zero_field; rewrite ?Hs1; cbn [read2 read3];
      rewrite ?Hv1, ?Hw1; try reflexivity; try discriminate. lia. }
  rewrite A2. cbn [bind].
  assert (P2 : project (view self_velo ax0) (view self_velo ax1)
                 (view self_velo0 ax0) (view self_velo0 ax1) f1 = f1).
  { apply project_zero; rewrite ?Hs1; cbn [read2 read3];
      rewrite ?Hv1, ?Hw1; try reflexivity. lia. }
  rewrite P2, Hf1, diffuse_zero_branch.
  unfold write, read. cbn [planes map combine fold_left fst snd].
  set (f2 := write2 self_s (read2 self_density f1) f1).
  assert (Hs2 : size f2 = size f) by (subst f2; now rewrite size_write2).
  assert (Hv2 : velo f2 = zero_vfield (size f)) by (subst f2; exact Hv1).
  rewrite (@advect_zero self_density self_s self_velo f2);
    rewrite ?Hs2; try discriminate; try lia; try exact Hv2.
  eexists. split; [reflexivity|]. split; [|exact Hv2].
  unfold total_density. rewrite size_write2, Hs2.
  change (density (write2 self_density ?t ?g)) with t.
  change (read2 self_s f2) with (density f1). rewrite Hd1, Hdens.
  apply sum_interior_single with (r := 5) (c := 5); try lia.
  intros i j Hi Hj. rewrite get_enforce_interior by assumption.
  rewrite get_set_cell, zero_get, !wrap_nonneg by lia.
  reflexivity.
Qed.
(** * The theorems at concrete states *)

Lemma set_boundaries_idempotent_witness :
  3 <= size state_stirred /\
  set_boundaries (Arr3 self_velo)
    (set_boundaries (Arr3 self_velo) state_stirred)
  = set_boundaries (Arr3 self_velo) state_stirred.
Proof.
  split; [cbn; lia|].
  apply set_boundaries_idempotent. cbn. lia.
Defined.

Lemma set_boundaries_reflects_witness :
  3 <= size state_stirred /\ 1 <= 1 < size state_stirred - 1 /\
  get (vf1 (read3 self_velo (set_boundaries (Arr3 self_velo) state_stirred)))
      1 0
  = fneg (get (vf1 (read3 self_velo state_stirred)) 1 1).
Proof.
  split; [cbn; lia|]. split; [cbn; lia|].
  pose proof (@set_boundaries_reflects Qc Qc_num self_velo state_stirred 1
                ltac:(cbn; lia) ltac:(cbn; lia)) as H.
  cbv zeta in H. destruct H as [[H _] _]. exact H.
Defined.

Lemma lin_solve_jacobi_sweeps_witness :
  of_int 6 <> 0%Qc /\ 3 <= size state_two_jets /\
  lin_solve (Arr3 self_velo0) (Arr3 self_velo) (of_int 1) (of_int 6)
    state_two_jets
  = Nat.iter (Z.to_nat (iter state_two_jets))
      (LinearSolver_sweep (Arr3 self_velo0) (Arr3 self_velo)
         (of_int 1) (of_int 6))
      state_two_jets /\
  (forall g v v0 i j,
     size g = size state_two_jets ->
     In (v, v0) (combine (planes (Arr3 self_velo0)) (planes (Arr3 self_velo))) ->
     1 <= i < size state_two_jets - 1 -> 1 <= j < size state_two_jets - 1 ->
     get (read2 v (LinearSolver_sweep (Arr3 self_velo0) (Arr3 self_velo)
                     (of_int 1) (of_int 6) g)) i j
     = fdiv (fadd (get (read2 v0 g) i j)
                  (fmul (of_int 1)
                     (fadd (fadd (fadd (get (read2 v g) (i - 1) j)
                                       (get (read2 v g) (i + 1) j))
                                 (get (read2 v g) i (j - 1)))
                           (get (read2 v g) i (j + 1)))))
            (of_int 6)) /\
  (forall g,
     size g = size state_two_jets ->
     set_boundaries (Arr3 self_velo0)
       (LinearSolver_sweep (Arr3 self_velo0) (Arr3 self_velo)
          (of_int 1) (of_int 6) g)
     = LinearSolver_sweep (Arr3 self_velo0) (Arr3 self_velo)
         (of_int 1) (of_int 6) g).
Proof.
  split; [apply of_int_6_nonzero|]. split; [cbn; lia|].
  exact (@lin_solve_jacobi_sweeps (Arr3 self_velo0) (Arr3 self_velo)
           (of_int 1) (of_int 6) state_two_jets of_int_6_nonzero
           ltac:(cbn; lia)).
Defined.

Lemma project_is_Projector_witness :
  3 <= size state_two_jets /\
  view self_velo ax0 <> view self_velo ax1 /\
  view self_velo ax0 <> view self_velo0 ax0 /\
  view self_velo ax0 <> view self_velo0 ax1 /\
  view self_velo ax1 <> view self_velo0 ax0 /\
  view self_velo ax1 <> view self_velo0 ax1 /\
  view self_velo0 ax0 <> view self_velo0 ax1 /\
  let velo_x := view self_velo ax0 in
  let velo_y := view self_velo ax1 in
  let p := view self_velo0 ax0 in
  let div := view self_velo0 ax1 in
  let f := state_two_jets in
  let n := size f in
  let vx := read2 velo_x f in
  let vy := read2 velo_y f in
  let setup := Projector_setup velo_x velo_y p div f in
  let solved :=
    Nat.iter (Z.to_nat (iter f))
      (LinearSolver_sweep (Arr2 p) (Arr2 div) (of_int 1) (of_int 6)) setup in
  let P := read2 p solved in
  let after := project velo_x velo_y p div f in
  (forall i j, 1 <= i < n - 1 -> 1 <= j < n - 1 ->
     get (read2 div setup) i j
     = (- half * ((get vx (i + 1) j - get vx (i - 1) j)
                  + (get vy i (j + 1) - get vy i (j - 1))) / of_int n)%Qc) /\
  read2 div setup = enforce n keep keep (read2 div setup) /\
  read2 p setup = enforce n keep keep (full n (of_int 0)) /\
  after = set_boundaries (Arr3 self_velo)
            (Projector_subtract velo_x velo_y p solved) /\
  (forall i j, 1 <= i < n - 1 -> 1 <= j < n - 1 ->
     get (read2 velo_x after) i j
     = (get vx i j - half * (get P (i + 1) j - get P (i - 1) j) * of_int n)%Qc
     /\
     get (read2 velo_y after) i j
     = (get vy i j - half * (get P i (j + 1) - get P i (j - 1)) * of_int n)%Qc).
Proof.
  split; [cbn; lia|]. do 6 (split; [discriminate|]).
  exact (@project_is_Projector (view self_velo ax0) (view self_velo ax1)
           (view self_velo0 ax0) (view self_velo0 ax1) state_two_jets
           ltac:(cbn; lia) ltac:(discriminate) ltac:(discriminate)
           ltac:(discriminate) ltac:(discriminate) ltac:(discriminate)
           ltac:(discriminate)).
Defined.

Lemma advect_zero_velocity_witness :
  3 <= size state_scenario /\
  read3 self_velo state_scenario = zero_vfield (size state_scenario) /\
  exists f',
    advect (view self_velo ax0) self_density self_velo state_scenario
    = Ok f' /\
    (forall i j,
       1 <= i < size state_scenario - 1 ->
       1 <= j < size state_scenario - 1 ->
       get (read2 (view self_velo ax0) f') i j
       = get (read2 self_density state_scenario) i j) /\
    read2 (view self_velo ax0) f'
    = enforce (size state_scenario) keep keep
        (read2 self_density state_scenario) /\
    (set_boundaries (Arr2 self_density) state_scenario = state_scenario ->
     read2 (view self_velo ax0) f' = read2 self_density state_scenario) /\
    (forall v, v <> view self_velo ax0 ->
       read2 v f' = read2 v state_scenario).
Proof.
  split; [cbn; lia|]. split; [reflexivity|].
  apply (@advect_zero_velocity (view self_velo ax0) self_density self_velo
           state_scenario); [cbn; lia | reflexivity].
Defined.

Lemma step_at_rest_keeps_density_witness :
  7 <= size state_scenario /\
  diff state_scenario = of_int 0 /\ visc state_scenario = of_int 0 /\
  velo state_scenario = zero_vfield (size state_scenario) /\
  density state_scenario
  = set_cell (size state_scenario) (full (size state_scenario) (of_int 0))
      5 5 (of_int 100) /\
  exists f',
    step state_scenario = Ok f' /\
    total_density f' = of_int 100 /\
    velo f' = zero_vfield (size state_scenario).
Proof.
  split; [cbn; lia|]. split; [reflexivity|]. split; [reflexivity|].
  split; [reflexivity|].
  assert (Hd : density state_scenario
               = set_cell (size state_scenario)
                   (full (size state_scenario) (of_int 0)) 5 5 (of_int 100))
    by (vm_compute; reflexivity).
  split; [exact Hd|].
  apply (@step_at_rest_keeps_density state_scenario);
    first [exact Hd | reflexivity | cbn; lia].
Defined.

(** * More about [set_boundaries] and [total_density] *)

Section BoundaryMore.

Context {R : Type} {num : Num R}.

Implicit Types (f : Fluid (R := R)) (t : plane (R := R)).

(** X1.  On a 2d array [set_boundaries] gives every boundary cell that
    is not a corner the value of the cell one step inward, on each of
    the four walls. *)
Theorem set_boundaries_scalar_copies (v : buffer2) (f : Fluid (R := R))
  (k : Z) :
  3 <= size f -> 1 <= k < size f - 1 ->
  let n := size f in
  let before := read2 v f in
  let after := read2 v (set_boundaries (Arr2 v) f) in
  get after k 0 = get before k 1 /\
  get after k (n - 1) = get before k (n - 2) /\
  get after 0 k = get before 1 k /\
  get after (n - 1) k = get before (n - 2) k.
Proof.
  intros Hn Hk n before after. subst after before n.
  rewrite set_boundaries_Arr2, read2_write2.
  rewrite !get_enforce by lia.
  unfold enforced_value, edge_value, on_edge, near, keep.
  repeat split; split_tests; reflexivity.
Qed.

(** X2.  [set_boundaries] changes no attribute, no interior cell of any
    array, and no cell at all of an array that is not part of its
    argument. *)
Theorem set_boundaries_frame (tb : table) (f : Fluid (R := R)) :
  2 <= size f ->
  let f' := set_boundaries tb f in
  (size f' = size f /\ dt f' = dt f /\ iter f' = iter f /\
   diff f' = diff f /\ visc f' = visc f) /\
  (forall v i j, 1 <= i < size f - 1 -> 1 <= j < size f - 1 ->
     get (read2 v f') i j = get (read2 v f) i j) /\
  (forall v, ~ In v (planes tb) -> read2 v f' = read2 v f).
Proof.
  intros _ f'. subst f'. split; [|split].
  - destruct tb as [v|b].
    + rewrite set_boundaries_Arr2.
      now rewrite size_write2, dt_write2, iter_write2, diff_write2,
        visc_write2.
    + rewrite set_boundaries_Arr3. now destruct b.
  - intros v i j Hi Hj. now apply get_set_boundaries_interior.
  - intros v Hv. destruct tb as [u|b]; cbn [planes In] in Hv.
    + apply read2_set_boundaries_other. tauto.
    + rewrite set_boundaries_Arr3.
      destruct v as [| |b' k]; [now destruct b | now destruct b |].
      destruct b, b', k; try reflexivity; exfalso; tauto.
Qed.

Lemma fold_left_ext_in {A B : Type} (g g' : A -> B -> A) (l : list B) (a : A) :
  (forall a b, In b l -> g a b = g' a b) -> fold_left g l a = fold_left g' l a.
Proof.
  revert a. induction l as [|b l IH]; intros a H; [reflexivity|].
  cbn [fold_left]. rewrite H by (now left). apply IH.
  intros a' b' Hb'. apply H. now right.
Qed.

Lemma sum_interior_ext n t t' :
  (forall i j, 1 <= i < n - 1 -> 1 <= j < n - 1 -> get t i j = get t' i j) ->
  sum_interior n t = sum_interior n t'.
Proof.
  intros H. unfold sum_interior. apply fold_left_ext_in.
  intros acc i Hi. apply fold_left_ext_in. intros acc' j Hj.
  apply in_range in Hi, Hj. now rewrite H by lia.
Qed.

(** X3.  [total_density] reads interior cells only, so that enforcing
    the boundaries of any array, the density included, never changes
    it. *)
Theorem total_density_set_boundaries (tb : table) (f : Fluid (R := R)) :
  2 <= size f ->
  total_density (set_boundaries tb f) = total_density f.
Proof.
  intros _. unfold total_density. rewrite size_set_boundaries.
  apply sum_interior_ext. intros i j Hi Hj.
  change (density ?g) with (read2 self_density g).
  now apply get_set_boundaries_interior.
Qed.

End BoundaryMore.

Lemma enforced_value_corner {R : Type} {num : Num R} n (sc sr : R -> R)
  (t : plane (R := R)) i j :
  3 <= n -> (i = 0 \/ i = n - 1) -> (j = 0 \/ j = n - 1) ->
  enforced_value n sc sr t i j
  = fmul half (fadd (sc (get t (near n i) (near n j)))
                    (sr (get t (near n i) (near n j)))).
Proof.
  intros Hn Hi Hj.
  assert (Ei : on_edge n i = true)
    by (unfold on_edge; destruct Hi; subst; split_tests; reflexivity).
  assert (Ej : on_edge n j = true)
    by (unfold on_edge; destruct Hj; subst; split_tests; reflexivity).
  assert (Ni : 1 <= near n i < n - 1)
    by (apply near_interior; lia).
  assert (Nj : 1 <= near n j < n - 1)
    by (apply near_interior; lia).
  unfold enforced_value, edge_value. rewrite Ei, Ej. cbn [andb].
  rewrite (@on_edge_interior n (near n i)), (@on_edge_interior n (near n j))
    by assumption.
  now rewrite (@near_fixed n (near n i)), (@near_fixed n (near n j))
    by assumption.
Qed.

Lemma half_inv_two : half = (/ (1 + 1))%Qc.
Proof. apply Qc_is_canon. reflexivity. Qed.

Lemma two_nonzero : (1 + 1 <> 0)%Qc.
Proof. intros H. apply (f_equal this) in H. discriminate H. Qed.

Lemma half_double (a : Qc) : fmul half (fadd a a) = a.
Proof. rewrite half_inv_two. qc_arith. field. apply two_nonzero. Qed.

Lemma half_cancel (a : Qc) : fmul half (fadd a (fneg a)) = 0%Qc.
Proof. qc_arith. ring. Qed.

Lemma half_cancel' (a : Qc) : fmul half (fadd (fneg a) a) = 0%Qc.
Proof. qc_arith. ring. Qed.

(** X4.  In exact arithmetic [set_boundaries] gives each corner of a 2d
    array the value of its diagonal neighbour in the interior. *)
Theorem set_boundaries_scalar_corners (v : buffer2) (f : Fluid (R := Qc)) :
  3 <= size f ->
  let n := size f in
  let before := read2 v f in
  let after := read2 v (set_boundaries (Arr2 v) f) in
  get after 0 0 = get before 1 1 /\
  get after 0 (n - 1) = get before 1 (n - 2) /\
  get after (n - 1) 0 = get before (n - 2) 1 /\
  get after (n - 1) (n - 1) = get before (n - 2) (n - 2).
Proof.
  intros Hn n before after. subst after before n.
  rewrite set_boundaries_Arr2, read2_write2.
  rewrite !get_enforce by lia.
  rewrite !enforced_value_corner by lia.
  unfold keep. rewrite !half_double. unfold near.
  repeat split; split_tests; reflexivity.
Qed.

(** X5.  In exact arithmetic [set_boundaries] puts the zero vector in
    the four corners of an array of vectors, whatever the array
    holds. *)
Theorem set_boundaries_vector_corners (b : buffer3) (f : Fluid (R := Qc))
  (i j : Z) :
  3 <= size f ->
  (i = 0 \/ i = size f - 1) -> (j = 0 \/ j = size f - 1) ->
  let after := read3 b (set_boundaries (Arr3 b) f) in
  get (vf0 after) i j = 0%Qc /\ get (vf1 after) i j = 0%Qc.
Proof.
  intros Hn Hi Hj after. subst after.
  rewrite set_boundaries_Arr3, read3_write3. cbn [vf0 vf1].
  rewrite !get_enforce by lia.
  rewrite !enforced_value_corner by assumption.
  unfold keep. split; [apply half_cancel | apply half_cancel'].
Qed.

(** * What the solver, the diffusion and the projection leave alone *)

Section Frames.

Context {R : Type} {num : Num R}.

Implicit Types (f g : Fluid (R := R)) (t : plane (R := R)).

Lemma same_config_refl f : same_config f f.
Proof. unfold same_config. tauto. Qed.

Lemma same_config_trans f g h :
  same_config f g -> same_config g h -> same_config f h.
Proof.
  unfold same_config. intros (-> & -> & -> & -> & ->). tauto.
Qed.

Lemma same_config_write2 v t f : same_config (write2 v t f) f.
Proof.
  unfold same_config.
  now rewrite size_write2, dt_write2, iter_write2, diff_write2, visc_write2.
Qed.

Lemma same_config_write tb ts f : same_config (write tb ts f) f.
Proof.
  unfold write. revert f.
  induction (combine (planes tb) ts) as [|[v t] l IH]; intros f;
    [apply same_config_refl|].
  cbn [fold_left fst snd].
  eapply same_config_trans; [apply IH | apply same_config_write2].
Qed.

Lemma same_config_set_boundaries tb f : same_config (set_boundaries tb f) f.
Proof.
  destruct tb as [v|b].
  - rewrite set_boundaries_Arr2. apply same_config_write2.
  - rewrite set_boundaries_Arr3. unfold same_config.
    destruct b; cbn [write3 size dt iter diff visc]; tauto.
Qed.

Lemma fold_left_preserves {A B : Type} (P : A -> Prop) (h : A -> B -> A)
  (l : list B) (a : A) :
  P a -> (forall a b, P a -> P (h a b)) -> P (fold_left h l a).
Proof.
  intros Ha Hh. revert a Ha. induction l as [|b l IH]; intros a Ha;
    [assumption|].
  cbn [fold_left]. apply IH. now apply Hh.
Qed.

Lemma read2_write_other tb ts v f :
  ~ In v (planes tb) -> read2 v (write tb ts f) = read2 v f.
Proof.
  intros Hv. unfold write.
  destruct tb as [u|b]; cbn [planes In] in Hv; cbn [planes].
  - destruct ts as [|t0 ts]; cbn [combine fold_left fst snd];
      [reflexivity|].
    apply read2_write2_other. tauto.
  - destruct ts as [|t0 [|t1 ts]]; cbn [combine fold_left fst snd];
      [reflexivity| |].
    + apply read2_write2_other. tauto.
    + rewrite !read2_write2_other by tauto. reflexivity.
Qed.

Lemma read2_set_boundaries_outside tb v f :
  ~ In v (planes tb) -> read2 v (set_boundaries tb f) = read2 v f.
Proof.
  intros Hv. destruct tb as [u|b]; cbn [planes In] in Hv.
  - apply read2_set_boundaries_other. tauto.
  - rewrite set_boundaries_Arr3.
    destruct v as [| |b' k]; [now destruct b | now destruct b |].
    destruct b, b', k; try reflexivity; exfalso; tauto.
Qed.

Lemma same_config_lin_solve x x0 (a c : R) f :
  same_config (lin_solve x x0 a c f) f.
Proof.
  unfold lin_solve.
  apply (fold_left_preserves (fun g => same_config g f));
    [apply same_config_refl|].
  intros g k Hg.
  eapply same_config_trans; [apply same_config_set_boundaries|].
  eapply same_config_trans; [apply same_config_write|assumption].
Qed.

Lemma read2_lin_solve_outside x x0 (a c : R) v f :
  ~ In v (planes x) -> read2 v (lin_solve x x0 a c f) = read2 v f.
Proof.
  intros Hv. unfold lin_solve.
  apply (fold_left_preserves (fun g => read2 v g = read2 v f));
    [reflexivity|].
  intros g k Hg.
  now rewrite read2_set_boundaries_outside, read2_write_other.
Qed.

(** X6.  For arrays [x] and [x0] of the same number of dimensions and
    a non-zero [c], [lin_solve] changes no attribute and no array other
    than [x], and with no iteration to run it changes nothing. *)
Theorem lin_solve_frame (x x0 : table) (a c : R) (f : Fluid (R := R)) :
  2 <= size f -> ndim x = ndim x0 -> fne c (of_int 0) = true ->
  same_config (lin_solve x x0 a c f) f /\
  (forall v, ~ In v (planes x) ->
     read2 v (lin_solve x x0 a c f) = read2 v f) /\
  (iter f <= 0 -> lin_solve x x0 a c f = f).
Proof.
  intros _ _ _. split; [apply same_config_lin_solve|split].
  - intros v Hv. now apply read2_lin_solve_outside.
  - intros Hit. unfold lin_solve. now rewrite range_empty by lia.
Qed.

Lemma same_config_diffuse x x0 (d : R) f : same_config (diffuse x x0 d f) f.
Proof.
  unfold diffuse. destruct (fne d (of_int 0));
    [apply same_config_lin_solve | apply same_config_write].
Qed.

Lemma read2_diffuse_outside x x0 (d : R) v f :
  ~ In v (planes x) -> read2 v (diffuse x x0 d f) = read2 v f.
Proof.
  intros Hv. unfold diffuse. destruct (fne d (of_int 0));
    [now apply read2_lin_solve_outside | now apply read2_write_other].
Qed.

(** What [diffuse] leaves alone. *)
Lemma diffuse_effect (x x0 : table) (d : R) (f : Fluid (R := R)) :
  same_config (diffuse x x0 d f) f /\
  (forall v, ~ In v (planes x) -> read2 v (diffuse x x0 d f) = read2 v f).
Proof.
  split; [apply same_config_diffuse|].
  intros v Hv. now apply read2_diffuse_outside.
Qed.

(** X7.  [diffuse] changes no attribute and no array other than [x],
    in either of its branches (for arrays [x] and [x0] of the same
    number of dimensions and a call that divides by no zero). *)
Theorem diffuse_frame (x x0 : table) (d : R) (f : Fluid (R := R)) :
  2 <= size f -> ndim x = ndim x0 -> diffuse_defined f d = true ->
  same_config (diffuse x x0 d f) f /\
  (forall v, ~ In v (planes x) -> read2 v (diffuse x x0 d f) = read2 v f).
Proof. intros _ _ _. apply diffuse_effect. Qed.

Lemma same_config_project (velo_x velo_y p div : buffer2) f :
  same_config (project velo_x velo_y p div f) f.
Proof.
  unfold project. cbv zeta.
  repeat first
    [ eapply same_config_trans; [apply same_config_set_boundaries|]
    | eapply same_config_trans; [apply same_config_write2|]
    | eapply same_config_trans; [apply same_config_lin_solve|] ].
  apply same_config_refl.
Qed.

Lemma read2_project_outside (velo_x velo_y p div v : buffer2) f :
  v <> velo_x -> v <> velo_y -> v <> p -> v <> div ->
  v <> view self_velo ax0 -> v <> view self_velo ax1 ->
  read2 v (project velo_x velo_y p div f) = read2 v f.
Proof.
  intros Hx Hy Hp Hd H0 H1. unfold project. cbv zeta.
  rewrite read2_set_boundaries_outside
    by (cbn [planes In]; intuition congruence).
  rewrite !read2_write2_other by congruence.
  rewrite read2_lin_solve_outside
    by (cbn [planes In]; intuition congruence).
  rewrite !read2_set_boundaries_outside
    by (cbn [planes In]; intuition congruence).
  now rewrite !read2_write2_other by congruence.
Qed.

(** X8.  [project] changes no attribute, and no array besides the four
    it receives and [self.velo], whose boundaries it always enforces:
    called on the velocity arrays, as [step] does, it leaves [s] and
    [density] as they are. *)
Theorem project_frame (velo_x velo_y p div v : buffer2)
  (f : Fluid (R := R)) :
  2 <= size f ->
  v <> velo_x -> v <> velo_y -> v <> p -> v <> div ->
  v <> view self_velo ax0 -> v <> view self_velo ax1 ->
  same_config (project velo_x velo_y p div f) f /\
  read2 v (project velo_x velo_y p div f) = read2 v f.
Proof.
  intros _ Hx Hy Hp Hd H0 H1.
  split; [apply same_config_project | now apply read2_project_outside].
Qed.

End Frames.

(** * The loops of [advect] for any velocity *)

Lemma fold_bind_error {A B : Type} (body : B -> A -> result A) (l : list B) :
  fold_left (fun acc k => bind acc (body k)) l IndexError = IndexError.
Proof. induction l as [|k l IH]; [reflexivity|]. cbn [fold_left bind]. exact IH. Qed.

(** A loop whose body keeps [I] and raises exactly on the indices that
    fail [ok] raises as soon as one index fails. *)
Lemma for_range_fails {A : Type} (I : A -> Prop) (ok : Z -> bool) (lo hi : Z)
  (body : Z -> A -> result A) (a : A) :
  I a ->
  (forall k a, lo <= k < hi -> I a ->
     (ok k = true -> exists a', body k a = Ok a' /\ I a') /\
     (ok k = false -> body k a = IndexError)) ->
  forallb ok (range lo hi) = false ->
  for_range lo hi body a = IndexError.
Proof.
  intros Ha Hbody. unfold for_range.
  assert (Hin : forall k, In k (range lo hi) -> lo <= k < hi)
    by (intros k Hk; now apply in_range).
  revert a Ha Hin. induction (range lo hi) as [|k l IH]; intros a Ha Hin Hall;
    [discriminate Hall|].
  cbn [forallb] in Hall. cbn [fold_left bind].
  destruct (Hbody k a (Hin k ltac:(now left)) Ha) as [Hok Hko].
  destruct (ok k) eqn:E.
  - destruct (Hok eq_refl) as [a' [-> Ha']].
    apply IH; try assumption. intros k' Hk'. apply Hin. now right.
  - rewrite (Hko eq_refl). apply fold_bind_error.
Qed.

(** A loop that completes has kept what every completed body keeps. *)
Lemma for_range_preserves {A : Type} (I : A -> Prop) (lo hi : Z)
  (body : Z -> A -> result A) (a a' : A) :
  I a ->
  (forall k a a', I a -> body k a = Ok a' -> I a') ->
  for_range lo hi body a = Ok a' -> I a'.
Proof.
  intros Ha Hbody. unfold for_range. revert a Ha.
  induction (range lo hi) as [|k l IH]; intros a Ha Hrun.
  - cbn [fold_left] in Hrun. now injection Hrun as <-.
  - cbn [fold_left bind] in Hrun. destruct (body k a) as [a1|] eqn:E.
    + apply (IH a1); [now apply (Hbody k a)|assumption].
    + now rewrite fold_bind_error in Hrun.
Qed.

Section AdvectLoops.

Context {R : Type} {num : Num R}.

Implicit Types (f g : Fluid (R := R)) (t : plane (R := R)).

(** The body of the inner loop: it raises exactly when an index is out
    of bounds, and writes one cell of [d] otherwise. *)
Lemma advect_cell_spec (d d0 : buffer2) (velocity : buffer3) (i j : Z) g :
  advect_cell d d0 velocity i j g
  = if cell_in_bounds velocity g i j
    then Ok (write2 d (set_cell (size g) (read2 d g) i j
                         (advect_value d0 velocity g i j)) g)
    else IndexError.
Proof.
  unfold advect_cell, cell_in_bounds, advect_value, trace_x, trace_y, lookup.
  cbv zeta.
  destruct (in_bounds (size g) (floor _)), (in_bounds (size g) (floor _ + 1)),
    (in_bounds (size g) (floor _)), (in_bounds (size g) (floor _ + 1));
    reflexivity.
Qed.

Lemma same_except_read3 d (b : buffer3) g f :
  same_except d g f -> d <> view b ax0 -> d <> view b ax1 ->
  read3 b g = read3 b f.
Proof.
  intros (_ & _ & _ & _ & _ & Hv) H0 H1.
  pose proof (Hv (view b ax0) ltac:(congruence)) as E0.
  pose proof (Hv (view b ax1) ltac:(congruence)) as E1.
  cbn [read2] in E0, E1.
  destruct (read3 b g), (read3 b f). cbn [vf0 vf1] in E0, E1. now subst.
Qed.

Lemma cell_in_bounds_same d (velocity : buffer3) g f i j :
  same_except d g f -> d <> view velocity ax0 -> d <> view velocity ax1 ->
  cell_in_bounds velocity g i j = cell_in_bounds velocity f i j.
Proof.
  intros Hs H0 H1. pose proof (same_except_read3 Hs H0 H1) as Hv.
  destruct Hs as (Hn & Hdt & _).
  unfold cell_in_bounds, trace_x, trace_y. now rewrite Hn, Hdt, Hv.
Qed.


Lemma same_except_set_boundaries d g f :
  same_except d g f -> same_except d (set_boundaries (Arr2 d) g) f.
Proof.
  intros H. rewrite set_boundaries_Arr2. now apply same_except_write2_l.
Qed.

(** One cell, for a target that is not a component of the velocity. *)
Lemma advect_cell_cases d d0 (velocity : buffer3) f i j g :
  d <> view velocity ax0 -> d <> view velocity ax1 ->
  same_except d g f ->
  (cell_in_bounds velocity f i j = true ->
   exists g', advect_cell d d0 velocity i j g = Ok g' /\ same_except d g' f) /\
  (cell_in_bounds velocity f i j = false ->
   advect_cell d d0 velocity i j g = IndexError).
Proof.
  intros H0 H1 Hs. rewrite advect_cell_spec.
  rewrite (cell_in_bounds_same i j Hs H0 H1).
  split; intros ->.
  - eexists. split; [reflexivity|]. now apply same_except_write2_l.
  - reflexivity.
Qed.

End AdvectLoops.

Lemma forallb_false_exists {A : Type} (p : A -> bool) (l : list A) :
  forallb p l = false -> exists a, In a l /\ p a = false.
Proof.
  induction l as [|a l IH]; intros H; [discriminate H|].
  cbn [forallb] in H. destruct (p a) eqn:E.
  - destruct (IH H) as [b [Hb Hp]]. exists b. split; [now right|assumption].
  - exists a. split; [now left|assumption].
Qed.

Lemma all_interior_true n (ok : Z -> Z -> bool) :
  all_interior n ok = true <->
  (forall i j, 1 <= i < n - 1 -> 1 <= j < n - 1 -> ok i j = true).
Proof.
  unfold all_interior. rewrite forallb_forall. split.
  - intros H i j Hi Hj.
    specialize (H j ltac:(now apply in_range)).
    rewrite forallb_forall in H. apply H. now apply in_range.
  - intros H j Hj. apply forallb_forall. intros i Hi.
    apply in_range in Hi, Hj. now apply H.
Qed.

Lemma all_interior_false n (ok : Z -> Z -> bool) :
  all_interior n ok = false <->
  (exists i j, 1 <= i < n - 1 /\ 1 <= j < n - 1 /\ ok i j = false).
Proof.
  split.
  - intros H. apply forallb_false_exists in H. destruct H as [j [Hj H]].
    apply forallb_false_exists in H. destruct H as [i [Hi H]].
    apply in_range in Hi, Hj. now exists i, j.
  - intros (i & j & Hi & Hj & H).
    destruct (all_interior n ok) eqn:E; [|reflexivity].
    rewrite all_interior_true in E. rewrite E in H by assumption.
    discriminate H.
Qed.

Section AdvectAny.

Context {R : Type} {num : Num R}.

Variables (d d0 : buffer2) (velocity : buffer3) (f : Fluid (R := R)).

Hypothesis d_not_v0 : d <> view velocity ax0.
Hypothesis d_not_v1 : d <> view velocity ax1.

Let ok := cell_in_bounds velocity f.

Lemma advect_column_cases j g :
  same_except d g f ->
  (forallb (fun i => ok i j) (range 1 (size f - 1)) = true ->
   exists g',
     for_range 1 (size f - 1) (fun i => advect_cell d d0 velocity i j) g
     = Ok g' /\ same_except d g' f) /\
  (forallb (fun i => ok i j) (range 1 (size f - 1)) = false ->
   for_range 1 (size f - 1) (fun i => advect_cell d d0 velocity i j) g
   = IndexError).
Proof.
  intros Hg. split; intros Hall.
  - destruct (Z_le_gt_dec 1 (size f - 1)) as [Hle|Hgt].
    + apply (for_range_invariant (fun _ g => same_except d g f));
        [assumption|assumption|].
      intros i h Hi Hh. rewrite forallb_forall in Hall.
      apply (advect_cell_cases d0 i j d_not_v0 d_not_v1 Hh).
      apply Hall. now apply in_range.
    + exists g. unfold for_range. rewrite range_empty by lia.
      now split.
  - apply (for_range_fails (fun g => same_except d g f)
             (fun i => ok i j)); try assumption.
    intros i h Hi Hh. now apply advect_cell_cases.
Qed.

Lemma advect_loops_cases :
  (all_interior (size f) ok = true ->
   exists g,
     for_range 1 (size f - 1) (fun j =>
       for_range 1 (size f - 1) (fun i => advect_cell d d0 velocity i j)) f
     = Ok g /\ same_except d g f) /\
  (all_interior (size f) ok = false ->
   for_range 1 (size f - 1) (fun j =>
     for_range 1 (size f - 1) (fun i => advect_cell d d0 velocity i j)) f
   = IndexError).
Proof.
  unfold all_interior. split; intros Hall.
  - destruct (Z_le_gt_dec 1 (size f - 1)) as [Hle|Hgt].
    + apply (for_range_invariant (fun _ g => same_except d g f));
        [assumption|apply same_except_refl|].
      intros j h Hj Hh. rewrite forallb_forall in Hall.
      apply (advect_column_cases j Hh).
      apply Hall. now apply in_range.
    + exists f. unfold for_range. rewrite range_empty by lia.
      split; [reflexivity|apply same_except_refl].
  - apply (for_range_fails (fun g => same_except d g f)
             (fun j => forallb (fun i => ok i j) (range 1 (size f - 1))));
      [apply same_except_refl| |assumption].
    intros j h Hj Hh. now apply advect_column_cases.
Qed.

Lemma advect_raises :
  advect d d0 velocity f = IndexError <->
  all_interior (size f) ok = false.
Proof.
  unfold advect. destruct advect_loops_cases as [Hok Hko].
  destruct (all_interior (size f) ok) eqn:E.
  - destruct (Hok eq_refl) as [g [-> _]]. cbn [bind].
    split; intros H; discriminate H.
  - rewrite (Hko eq_refl). cbn [bind]. tauto.
Qed.

End AdvectAny.

(** X9.  [advect] raises [IndexError] exactly when, at some interior
    cell, one of the four indices [i0], [i0 + 1], [j0], [j0 + 1] taken
    from the clamped back-traced coordinates is no index of the array
    (for a target that is not a component of the driving velocity; any
    arithmetic on the cells). *)
Theorem advect_raises_iff {R : Type} {num : Num R} (d d0 : buffer2)
  (velocity : buffer3) (f : Fluid (R := R)) :
  2 <= size f ->
  d <> view velocity ax0 -> d <> view velocity ax1 ->
  (advect d d0 velocity f = IndexError <->
   exists i j, 1 <= i < size f - 1 /\ 1 <= j < size f - 1 /\
               cell_in_bounds velocity f i j = false).
Proof.
  intros _ H0 H1. rewrite (advect_raises d0 f H0 H1).
  apply all_interior_false.
Qed.

Section AdvectResult.

Context {R : Type} {num : Num R}.

Implicit Types (f g : Fluid (R := R)) (t : plane (R := R)).

Lemma advect_loops_same_except (d d0 : buffer2) (velocity : buffer3) f g :
  for_range 1 (size f - 1) (fun j =>
    for_range 1 (size f - 1) (fun i => advect_cell d d0 velocity i j)) f
  = Ok g ->
  same_except d g f.
Proof.
  apply (for_range_preserves (fun g => same_except d g f));
    [apply same_except_refl|].
  intros j h h' Hh.
  apply (for_range_preserves (fun g => same_except d g f)); [assumption|].
  intros i k k' Hk. rewrite advect_cell_spec.
  destruct (cell_in_bounds velocity k i j); [|discriminate].
  intros [= <-]. now apply same_except_write2_l.
Qed.

(** What a completed [advect] leaves alone. *)
Lemma advect_effect (d d0 : buffer2) (velocity : buffer3)
  (f f' : Fluid (R := R)) :
  advect d d0 velocity f = Ok f' ->
  same_config f' f /\
  (forall v, v <> d -> read2 v f' = read2 v f) /\
  (3 <= size f -> set_boundaries (Arr2 d) f' = f').
Proof.
  unfold advect. intros H.
  destruct (for_range 1 (size f - 1) _ f) as [g|] eqn:E; [|discriminate H].
  cbn [bind] in H.
  assert (Hf : set_boundaries (Arr2 d) g = f') by (now injection H).
  clear H. rewrite <- Hf. clear Hf.
  pose proof (advect_loops_same_except _ _ _ _ E) as Hg.
  pose proof (same_except_set_boundaries Hg)
    as (Hn & Hdt & Hit & Hdf & Hvs & Hv).
  split; [unfold same_config; tauto|]. split; [exact Hv|].
  intros Hsize. apply set_boundaries_idempotent_aux.
  destruct Hg as (-> & _). exact Hsize.
Qed.

(** X10.  When [advect] completes it has changed no attribute and no
    array other than its target [d], and on a grid with an interior the
    boundaries of [d] are enforced. *)
Theorem advect_frame (d d0 : buffer2) (velocity : buffer3)
  (f f' : Fluid (R := R)) :
  2 <= size f ->
  advect d d0 velocity f = Ok f' ->
  same_config f' f /\
  (forall v, v <> d -> read2 v f' = read2 v f) /\
  (3 <= size f -> set_boundaries (Arr2 d) f' = f').
Proof. intros _. apply advect_effect. Qed.

End AdvectResult.

Section AdvectGather.

Context {R : Type} {num : Num R}.

Variables (d d0 : buffer2) (velocity : buffer3) (f : Fluid (R := R)).

Hypothesis size_ok : 3 <= size f.
Hypothesis d_not_d0 : d <> d0.
Hypothesis d_not_v0 : d <> view velocity ax0.
Hypothesis d_not_v1 : d <> view velocity ax1.
Hypothesis all_ok : all_interior (size f) (cell_in_bounds velocity f) = true.






End AdvectGather.


(** * What [step] guarantees *)

Unset Implicit Arguments.

Section StepResult.

Context {R : Type} {num : Num R}.

Implicit Types (f g : Fluid (R := R)) (t : plane (R := R)).

Lemma write3_read3 b f : write3 b (read3 b f) f = f.
Proof. destruct f, b; reflexivity. Qed.

Lemma project_ends_enforced (velo_x velo_y p div : buffer2) f :
  3 <= size f ->
  set_boundaries (Arr3 self_velo) (project velo_x velo_y p div f)
  = project velo_x velo_y p div f.
Proof.
  intros Hn. unfold project. cbv zeta.
  apply set_boundaries_idempotent_aux.
  now rewrite !size_write2, size_lin_solve, !size_set_boundaries,
    !size_write2.
Qed.

(** The boundaries of [velo] stay enforced in a state with the same
    [velo]. *)
Lemma velo_enforced_same g g' :
  set_boundaries (Arr3 self_velo) g = g ->
  size g' = size g -> velo g' = velo g ->
  set_boundaries (Arr3 self_velo) g' = g'.
Proof.
  intros Hg Hs Hv. rewrite set_boundaries_Arr3.
  apply (f_equal velo) in Hg. rewrite set_boundaries_Arr3 in Hg.
  cbn [write3 velo] in Hg.
  change (read3 self_velo g') with (velo g'). rewrite Hs, Hv.
  change (velo g) with (read3 self_velo g) at 1 2. rewrite Hg, <- Hv.
  exact (write3_read3 self_velo g').
Qed.

Lemma velo_of_components g g' :
  read2 (view self_velo ax0) g' = read2 (view self_velo ax0) g ->
  read2 (view self_velo ax1) g' = read2 (view self_velo ax1) g ->
  velo g' = velo g.
Proof.
  cbn [read2 read3]. destruct (velo g'), (velo g). cbn [vf0 vf1].
  now intros -> ->.
Qed.

Lemma step_binds (f : Fluid (R := R)) :
  step f
  = bind (advect (view self_velo ax0) (view self_velo0 ax0) self_velo0
            (project (view self_velo0 ax0) (view self_velo0 ax1)
               (view self_velo ax0) (view self_velo ax1)
               (diffuse (Arr3 self_velo0) (Arr3 self_velo) (visc f) f)))
      (fun f3 =>
         bind (advect (view self_velo ax1) (view self_velo0 ax1)
                 self_velo0 f3)
           (fun f4 =>
              advect self_density self_s self_velo
                (diffuse (Arr2 self_s) (Arr2 self_density)
                   (diff (project (view self_velo ax0) (view self_velo ax1)
                            (view self_velo0 ax0) (view self_velo0 ax1) f4))
                   (project (view self_velo ax0) (view self_velo ax1)
                      (view self_velo0 ax0) (view self_velo0 ax1) f4)))).
Proof. reflexivity. Qed.

Lemma bind_Ok {A B : Type} (r : result A) (k : A -> result B) (b : B) :
  bind r k = Ok b -> exists a, r = Ok a /\ k a = Ok b.
Proof. destruct r as [a|]; [|discriminate]. intros H. now exists a. Qed.

(** The three calls of [advect] behind a call of [step] that completes. *)
Lemma step_completes (f f' : Fluid (R := R)) :
  step f = Ok f' ->
  exists f3 f4,
    advect (view self_velo ax0) (view self_velo0 ax0) self_velo0
      (project (view self_velo0 ax0) (view self_velo0 ax1)
         (view self_velo ax0) (view self_velo ax1)
         (diffuse (Arr3 self_velo0) (Arr3 self_velo) (visc f) f)) = Ok f3 /\
    advect (view self_velo ax1) (view self_velo0 ax1) self_velo0 f3 = Ok f4 /\
    advect self_density self_s self_velo
      (diffuse (Arr2 self_s) (Arr2 self_density)
         (diff (project (view self_velo ax0) (view self_velo ax1)
                  (view self_velo0 ax0) (view self_velo0 ax1) f4))
         (project (view self_velo ax0) (view self_velo ax1)
            (view self_velo0 ax0) (view self_velo0 ax1) f4)) = Ok f'.
Proof.
  rewrite step_binds. intros H.
  apply bind_Ok in H. destruct H as [f3 [E3 H]].
  apply bind_Ok in H. destruct H as [f4 [E4 H]].
  exists f3, f4. split; [exact E3|]. split; [exact E4|exact H].
Qed.

(** X14.  A call of [step] that completes, neither [diffuse] dividing
    by zero, has changed no attribute, and on a grid with an interior it
    leaves the boundaries of the velocity and of the density enforced:
    [set_boundaries] would change neither. *)
Theorem step_postconditions (f f' : Fluid (R := R)) :
  3 <= size f ->
  diffuse_defined f (visc f) = true -> diffuse_defined f (diff f) = true ->
  step f = Ok f' ->
  same_config f' f /\
  set_boundaries (Arr3 self_velo) f' = f' /\
  set_boundaries (Arr2 self_density) f' = f'.
Proof.
  intros Hn _ _ H. apply step_completes in H.
  destruct H as (f3 & f4 & E3 & E4 & E7).
  revert E3 E7.
  generalize (same_config_diffuse (Arr3 self_velo0) (Arr3 self_velo)
                (visc f) f).
  generalize (diffuse (Arr3 self_velo0) (Arr3 self_velo) (visc f) f).
  intros f1 C1.
  generalize (same_config_project (view self_velo0 ax0) (view self_velo0 ax1)
                (view self_velo ax0) (view self_velo ax1) f1).
  generalize (project (view self_velo0 ax0) (view self_velo0 ax1)
                (view self_velo ax0) (view self_velo ax1) f1).
  intros f2 C2 E3.
  destruct (@advect_effect _ _ _ _ _ _ _ E3) as (C3 & _).
  destruct (@advect_effect _ _ _ _ _ _ _ E4) as (C4 & _).
  assert (S4 : same_config f4 f).
  { eapply same_config_trans; [exact C4|].
    eapply same_config_trans; [exact C3|].
    eapply same_config_trans; [exact C2|exact C1]. }
  generalize (same_config_project (view self_velo ax0) (view self_velo ax1)
                (view self_velo0 ax0) (view self_velo0 ax1) f4).
  assert (B5 : 3 <= size f4) by (destruct S4 as (-> & _); exact Hn).
  generalize (project_ends_enforced (view self_velo ax0) (view self_velo ax1)
                (view self_velo0 ax0) (view self_velo0 ax1) f4 B5).
  generalize (project (view self_velo ax0) (view self_velo ax1)
                (view self_velo0 ax0) (view self_velo0 ax1) f4).
  intros f5 B C5.
  generalize (diffuse_effect (Arr2 self_s) (Arr2 self_density) (diff f5) f5).
  generalize (diffuse (Arr2 self_s) (Arr2 self_density) (diff f5) f5).
  intros f6 [C6 F6] E7.
  destruct (@advect_effect _ _ _ _ _ _ _ E7) as (C7 & F7 & B7).
  assert (S5 : same_config f5 f)
    by (eapply same_config_trans; [exact C5|exact S4]).
  assert (S6 : same_config f6 f)
    by (eapply same_config_trans; [exact C6|exact S5]).
  split; [eapply same_config_trans; [exact C7|exact S6]|]. split.
  - apply velo_enforced_same with (g := f5).
    + exact B.
    + destruct C7 as (-> & _). now destruct C6.
    + apply velo_of_components.
      * rewrite F7 by discriminate.
        apply F6. cbn [planes In]. intuition discriminate.
      * rewrite F7 by discriminate.
        apply F6. cbn [planes In]. intuition discriminate.
  - apply B7. destruct S6 as (-> & _). exact Hn.
Qed.

End StepResult.

Set Implicit Arguments.


(** * The divergence diagnostics *)

Lemma fold_range_invariant {A : Type} (I : Z -> A -> Prop) (lo hi : Z)
  (body : A -> Z -> A) (a : A) :
  lo <= hi -> I lo a ->
  (forall k a, lo <= k < hi -> I k a -> I (k + 1) (body a k)) ->
  I hi (fold_left body (range lo hi) a).
Proof.
  intros Hle H0 Hstep.
  assert (H : forall m : nat, lo + Z.of_nat m <= hi ->
            I (lo + Z.of_nat m)
              (fold_left body (range lo (lo + Z.of_nat m)) a)).
  { induction m as [|m IH]; intros Hm.
    - rewrite range_empty by lia. cbn [fold_left].
      now replace (lo + Z.of_nat 0) with lo by lia.
    - replace (lo + Z.of_nat (S m)) with (lo + Z.of_nat m + 1) by lia.
      rewrite range_snoc, fold_left_app by lia. cbn [fold_left].
      apply Hstep; [lia|]. apply IH. lia. }
  specialize (H (Z.to_nat (hi - lo))).
  replace (lo + Z.of_nat (Z.to_nat (hi - lo))) with hi in H by lia.
  apply H. lia.
Qed.

Section Divergence.

Context {R : Type} {num : Num R}.

Implicit Types (f : Fluid (R := R)) (t : plane (R := R)).

(** The loops of [vector_divergence] write each cell of the range once,
    from the velocity alone. *)
Lemma get_vector_divergence f y x :
  0 <= y < size f -> 0 <= x < size f ->
  get (vector_divergence f) y x
  = if (1 <=? y) && (y <? size f - 2) && (1 <=? x) && (x <? size f - 2)
    then window_sum (velo f) y x
    else of_int 0.
Proof.
  intros Hy Hx. unfold vector_divergence. cbv zeta.
  destruct (Z_le_gt_dec 1 (size f - 2)) as [Hle|Hgt].
  - pose (J := fun x0 y0 (m : plane (R := R)) =>
        forall y' x', 0 <= y' < size f -> 0 <= x' < size f ->
          get m y' x' = if diverged (size f) x0 y0 x' y'
                        then window_sum (velo f) y' x' else of_int 0).
    assert (HJ : J (size f - 2) 1
              (fold_left (fun divergence_map x0 =>
                 fold_left (fun divergence_map y0 =>
                   set_cell (size f) divergence_map y0 x0
                     (window_sum (velo f) y0 x0))
                   (range 1 (size f - 2)) divergence_map)
                 (range 1 (size f - 2)) (full (size f) (of_int 0)))).
    { apply (fold_range_invariant (fun x0 m => J x0 1 m)); [assumption| |].
      - intros y' x' Hy' Hx'. unfold full. rewrite get_tabulate by assumption.
        replace (diverged (size f) 1 1 x' y') with false; [reflexivity|].
        unfold diverged. split_tests; reflexivity.
      - intros x0 m Hx0 Hm.
        assert (HK : J x0 (size f - 2)
                  (fold_left (fun divergence_map y0 =>
                     set_cell (size f) divergence_map y0 x0
                       (window_sum (velo f) y0 x0))
                     (range 1 (size f - 2)) m)).
        { apply (fold_range_invariant (fun y0 m => J x0 y0 m));
            [assumption|assumption|].
          intros y0 m' Hy0 Hm' y' x' Hy' Hx'.
          rewrite get_set_cell, Hm' by assumption.
          rewrite !wrap_nonneg by lia. unfold diverged.
          split_tests; cbn [andb orb]; subst; reflexivity. }
        intros y' x' Hy' Hx'. rewrite HK by assumption.
        replace (diverged (size f) (x0 + 1) 1 x' y')
          with (diverged (size f) x0 (size f - 2) x' y'); [reflexivity|].
        unfold diverged. split_tests; reflexivity. }
    rewrite HJ by assumption.
    replace (diverged (size f) (size f - 2) 1 x y)
      with ((1 <=? y) && (y <? size f - 2) && (1 <=? x) && (x <? size f - 2));
      [reflexivity|].
    unfold diverged. split_tests; reflexivity.
  - rewrite range_empty by lia. cbn [fold_left].
    unfold full. rewrite get_tabulate by assumption.
    split_tests; reflexivity.
Qed.

(** X16.  Every cell of [vector_divergence] with both indices in
    [1 .. size - 3] holds the sum of the two gradients over the three
    by three window of [velo] around it, and every other cell holds 0. *)
Theorem vector_divergence_cells (f : Fluid (R := R)) (y x : Z) :
  0 <= y < size f -> 0 <= x < size f ->
  (1 <= y < size f - 2 -> 1 <= x < size f - 2 ->
   get (vector_divergence f) y x = window_sum (velo f) y x) /\
  (~ (1 <= y < size f - 2 /\ 1 <= x < size f - 2) ->
   get (vector_divergence f) y x = of_int 0).
Proof.
  intros Hy Hx. rewrite get_vector_divergence by assumption.
  split.
  - intros Hy' Hx'. split_tests; reflexivity.
  - intros H. split_tests; try reflexivity; exfalso; apply H; lia.
Qed.

(** X17.  The loops of [vector_divergence] stop one index early: the
    cells of row [size - 2] and of column [size - 2], which are interior
    cells, hold 0 whatever the velocity is. *)
Theorem vector_divergence_misses_last_interior (f : Fluid (R := R)) (k : Z) :
  3 <= size f -> 0 <= k < size f ->
  get (vector_divergence f) (size f - 2) k = of_int 0 /\
  get (vector_divergence f) k (size f - 2) = of_int 0.
Proof.
  intros Hn Hk. rewrite !get_vector_divergence by lia.
  split; split_tests; reflexivity.
Qed.

End Divergence.

Lemma of_int_2 : of_int 2 = (1 + 1)%Qc.
Proof. apply Qc_is_canon. reflexivity. Qed.

Lemma of_int_3 : of_int 3 = (1 + 1 + 1)%Qc.
Proof. apply Qc_is_canon. reflexivity. Qed.

(** The sum over a window in exact arithmetic: three halves of the
    differences between its outer rows and between its outer columns. *)
Lemma window_sum_exact (v : vfield (R := Qc)) (y x : Z) :
  window_sum v y x
  = (of_int 3 * half *
     ((get (vf0 v) (y + 1) (x - 1) - get (vf0 v) (y - 1) (x - 1))
      + (get (vf0 v) (y + 1) x - get (vf0 v) (y - 1) x)
      + (get (vf0 v) (y + 1) (x + 1) - get (vf0 v) (y - 1) (x + 1))
      + (get (vf1 v) (y - 1) (x + 1) - get (vf1 v) (y - 1) (x - 1))
      + (get (vf1 v) y (x + 1) - get (vf1 v) y (x - 1))
      + (get (vf1 v) (y + 1) (x + 1) - get (vf1 v) (y + 1) (x - 1))))%Qc.
Proof.
  unfold window_sum.
  change (range 0 3) with [0; 1; 2]. cbn [fold_left].
  unfold window_cell, gradient3.
  change (0 =? 0) with true. change (1 =? 0) with false.
  change (1 =? 1) with true. change (2 =? 0) with false.
  change (2 =? 1) with false. cbv iota.
  replace (x - 1 + 0) with (x - 1) by lia.
  replace (x - 1 + 1) with x by lia.
  replace (x - 1 + 2) with (x + 1) by lia.
  replace (y - 1 + 0) with (y - 1) by lia.
  replace (y - 1 + 1) with y by lia.
  replace (y - 1 + 2) with (y + 1) by lia.
  rewrite of_int_0, of_int_2, of_int_3, half_inv_two. qc_arith.
  field. apply two_nonzero.
Qed.

(** X18.  In exact arithmetic a cell of [vector_divergence] inside the
    range of the loops is three halves of the sum of six differences:
    component 0 between the rows below and above the cell, component 1
    between the columns after and before it, each over the three cells
    of the window.  The row of the cell does not enter for component 0,
    nor its column for component 1. *)
Theorem vector_divergence_exact (f : Fluid (R := Qc)) (y x : Z) :
  1 <= y < size f - 2 -> 1 <= x < size f - 2 ->
  get (vector_divergence f) y x
  = (of_int 3 * half *
     ((get (vf0 (velo f)) (y + 1) (x - 1) - get (vf0 (velo f)) (y - 1) (x - 1))
      + (get (vf0 (velo f)) (y + 1) x - get (vf0 (velo f)) (y - 1) x)
      + (get (vf0 (velo f)) (y + 1) (x + 1) - get (vf0 (velo f)) (y - 1) (x + 1))
      + (get (vf1 (velo f)) (y - 1) (x + 1) - get (vf1 (velo f)) (y - 1) (x - 1))
      + (get (vf1 (velo f)) y (x + 1) - get (vf1 (velo f)) y (x - 1))
      + (get (vf1 (velo f)) (y + 1) (x + 1) - get (vf1 (velo f)) (y + 1) (x - 1))))%Qc.
Proof.
  intros Hy Hx.
  rewrite get_vector_divergence by lia.
  replace ((1 <=? y) && (y <? size f - 2) && (1 <=? x) && (x <? size f - 2))
    with true by (split_tests; reflexivity).
  apply window_sum_exact.
Qed.

Lemma Qcabs_0 : Qcabs 0%Qc = 0%Qc.
Proof. apply Qcabs_pos. apply Qcle_refl. Qed.

Lemma get_map_Qcabs (t : plane (R := Qc)) i j :
  get (map (map Qcabs) t) i j = Qcabs (get t i j).
Proof.
  unfold get.
  change (@nil Qc) with (map Qcabs []) at 1. rewrite map_nth.
  rewrite of_int_0, <- Qcabs_0 at 1. now rewrite map_nth.
Qed.

Lemma fold_add_nonneg {B : Type} (g : B -> Qc) (l : list B) (acc : Qc) :
  (0 <= acc)%Qc -> (forall b, In b l -> (0 <= g b)%Qc) ->
  (0 <= fold_left (fun acc b => fadd acc (g b)) l acc)%Qc.
Proof.
  revert acc. induction l as [|b l IH]; intros acc Hacc Hg; [assumption|].
  cbn [fold_left]. apply IH.
  - qc_arith. replace 0%Qc with (0 + 0)%Qc by ring.
    apply Qcplus_le_compat; [assumption|]. apply Hg. now left.
  - intros b' Hb'. apply Hg. now right.
Qed.

(** X19.  [total_divergence] is never negative. *)
Theorem total_divergence_nonneg (f : Fluid (R := Qc)) :
  (0 <= total_divergence f)%Qc.
Proof.
  unfold total_divergence, sum_all.
  apply (fold_left_preserves (fun acc => (0 <= acc)%Qc)).
  - rewrite of_int_0. apply Qcle_refl.
  - intros acc i Hacc. apply fold_add_nonneg; [assumption|].
    intros j _. rewrite get_map_Qcabs. apply Qcabs_nonneg.
Qed.


(** * The state [__init__] builds *)

Unset Implicit Arguments.


Set Implicit Arguments.

(** * Uniform fields under [lin_solve] *)

Lemma get_full (n : Z) (w : Qc) i j :
  0 <= i < n -> 0 <= j < n -> get (full n w) i j = w.
Proof. intros Hi Hj. unfold full. now rewrite get_tabulate. Qed.

(** Enforcing the boundaries keeps a uniform 2d array as it is. *)
Lemma enforce_uniform (n : Z) (w : Qc) :
  3 <= n -> enforce n keep keep (full n w) = full n w.
Proof.
  intros Hn.
  apply shaped_ext with (n := n);
    [apply shaped_enforce | apply shaped_tabulate |].
  intros i j Hi Hj. rewrite get_enforce by assumption.
  assert (E : forall i j, 0 <= i < n -> 0 <= j < n ->
            edge_value n keep keep (full n w) i j = w).
  { intros i' j' Hi' Hj'. unfold edge_value, keep.
    pose proof (near_interior Hn Hi'). pose proof (near_interior Hn Hj').
    rewrite get_full by lia.
    destruct (on_edge n i'), (on_edge n j'); reflexivity. }
  pose proof (near_interior Hn Hi). pose proof (near_interior Hn Hj).
  unfold enforced_value. rewrite !E, get_full by lia.
  destruct (on_edge n i && on_edge n j); [|reflexivity].
  apply half_double.
Qed.

(** One sweep of [lin_solve] on uniform arrays, boundaries enforced. *)
Lemma sweep_uniform (n : Z) (a c u w : Qc) :
  3 <= n ->
  enforce n keep keep
    (relax n a (fdiv (of_int 1) c) (full n w) (full n u))
  = full n ((u + a * (w + w + w + w)) / c)%Qc.
Proof.
  intros Hn.
  rewrite <- (@enforce_uniform n ((u + a * (w + w + w + w)) / c)%Qc Hn).
  apply enforce_ext; [assumption|].
  intros i j Hi Hj. unfold relax.
  rewrite get_set_interior by lia.
  replace (interior n i j) with true
    by (unfold interior; split_tests; reflexivity).
  rewrite !get_full by lia.
  rewrite of_int_1. qc_arith. unfold Qcdiv. ring.
Qed.

(** X22.  [lin_solve] keeps uniform arrays uniform: when [x0] holds
    [u] in every cell and [x] holds [v] in every cell, [x] ends with one
    value in every cell, boundary included, namely [v] taken [iter]
    times through [w -> (u + a * (w + w + w + w)) / c]. *)
Theorem lin_solve_uniform (x x0 : buffer2) (a c u v : Qc)
  (f : Fluid (R := Qc)) :
  3 <= size f -> c <> 0%Qc -> x <> x0 ->
  read2 x0 f = full (size f) u -> read2 x f = full (size f) v ->
  read2 x (lin_solve (Arr2 x) (Arr2 x0) a c f)
  = full (size f)
      (Nat.iter (Z.to_nat (iter f))
         (fun w => ((u + a * (w + w + w + w)) / c)%Qc) v).
Proof.
  intros Hn _ Hx H0 Hv.
  set (G := fun w : Qc => ((u + a * (w + w + w + w)) / c)%Qc).
  destruct (Z.le_gt_cases (iter f) 0) as [Hit|Hit].
  { unfold lin_solve. rewrite range_empty by lia.
    replace (Z.to_nat (iter f)) with 0%nat by lia. exact Hv. }
  unfold lin_solve. cbv zeta.
  pose proof (@fold_range_invariant (Fluid (R := Qc))
    (fun k g => size g = size f /\ read2 x0 g = full (size f) u /\
                read2 x g = full (size f) (Nat.iter (Z.to_nat k) G v))
    0 (iter f)
    (fun g _ =>
       set_boundaries (Arr2 x)
         (write (Arr2 x)
            (map2 (relax (size g) a (fdiv (of_int 1) c))
               (read (Arr2 x) g) (read (Arr2 x0) g)) g))
    f ltac:(lia)) as H.
  cbv beta in H. destruct H as (_ & _ & H).
  - split; [reflexivity|]. split; assumption.
  - intros k g Hk (Hs & Hg0 & Hg).
    unfold write, read. cbn [planes map map2 combine fold_left fst snd].
    rewrite set_boundaries_Arr2, size_write2, read2_write2.
    rewrite size_write2, read2_write2, read2_write2_other by assumption.
    rewrite read2_write2_other by assumption.
    split; [assumption|]. split; [assumption|].
    rewrite Hs, Hg, Hg0, sweep_uniform by assumption.
    replace (Z.to_nat (k + 1)) with (S (Z.to_nat k)) by lia.
    reflexivity.
  - exact H.
Qed.
(** * The further theorems at concrete states *)

Lemma set_boundaries_scalar_copies_witness :
  3 <= size state_stirred /\ 1 <= 1 < size state_stirred - 1 /\
  get (read2 (view self_velo ax0)
         (set_boundaries (Arr2 (view self_velo ax0)) state_stirred)) 1 0
  = get (read2 (view self_velo ax0) state_stirred) 1 1.
Proof.
  split; [cbn; lia|]. split; [cbn; lia|].
  pose proof (@set_boundaries_scalar_copies Qc Qc_num (view self_velo ax0)
                state_stirred 1 ltac:(cbn; lia) ltac:(cbn; lia)) as H.
  cbv zeta in H. destruct H as [H _]. exact H.
Defined.

Lemma set_boundaries_scalar_corners_witness :
  3 <= size state_stirred /\
  get (read2 (view self_velo ax0)
         (set_boundaries (Arr2 (view self_velo ax0)) state_stirred)) 0 0
  = get (read2 (view self_velo ax0) state_stirred) 1 1.
Proof.
  split; [cbn; lia|].
  pose proof (@set_boundaries_scalar_corners (view self_velo ax0)
                state_stirred ltac:(cbn; lia)) as H.
  cbv zeta in H. destruct H as [H _]. exact H.
Defined.

Lemma set_boundaries_vector_corners_witness :
  3 <= size state_stirred /\
  (0 = 0 \/ 0 = size state_stirred - 1) /\
  (2 = 0 \/ 2 = size state_stirred - 1) /\
  get (vf0 (read3 self_velo (set_boundaries (Arr3 self_velo) state_stirred)))
      0 2 = 0%Qc.
Proof.
  split; [cbn; lia|]. split; [left; reflexivity|].
  split; [right; reflexivity|].
  pose proof (@set_boundaries_vector_corners self_velo state_stirred 0 2
                ltac:(cbn; lia) ltac:(left; reflexivity)
                ltac:(right; reflexivity)) as H.
  cbv zeta in H. destruct H as [H _]. exact H.
Defined.

Lemma project_frame_witness :
  2 <= size state_stirred /\
  self_density <> view self_velo ax0 /\
  self_density <> view self_velo ax1 /\
  self_density <> view self_velo0 ax0 /\
  self_density <> view self_velo0 ax1 /\
  read2 self_density
    (project (view self_velo ax0) (view self_velo ax1)
       (view self_velo0 ax0) (view self_velo0 ax1) state_stirred)
  = read2 self_density state_stirred.
Proof.
  split; [cbn; lia|]. do 4 (split; [discriminate|]).
  pose proof (@project_frame Qc Qc_num (view self_velo ax0)
                (view self_velo ax1) (view self_velo0 ax0)
                (view self_velo0 ax1) self_density state_stirred
                ltac:(cbn; lia) ltac:(discriminate) ltac:(discriminate) ltac:(discriminate)
                ltac:(discriminate) ltac:(discriminate) ltac:(discriminate))
    as [_ H].
  exact H.
Defined.

Lemma advect_raises_iff_witness :
  2 <= size state_fast_flow /\
  self_density <> view self_velo ax0 /\
  self_density <> view self_velo ax1 /\
  (advect self_density self_s self_velo state_fast_flow = IndexError <->
   exists i j,
     1 <= i < size state_fast_flow - 1 /\
     1 <= j < size state_fast_flow - 1 /\
     cell_in_bounds self_velo state_fast_flow i j = false).
Proof.
  split; [cbn; lia|]. split; [discriminate|]. split; [discriminate|].
  apply (@advect_raises_iff Qc Qc_num self_density self_s self_velo
           state_fast_flow); [cbn; lia | discriminate | discriminate].
Defined.

Lemma advect_frame_witness :
  2 <= size state_two_jets /\
  exists f',
    advect self_density self_s self_velo state_two_jets = Ok f' /\
    same_config f' state_two_jets /\
    (forall v, v <> self_density -> read2 v f' = read2 v state_two_jets).
Proof.
  split; [cbn; lia|].
  destruct (advect self_density self_s self_velo state_two_jets)
    as [f'|] eqn:E; [|vm_compute in E; discriminate E].
  exists f'. split; [reflexivity|].
  destruct (@advect_frame Qc Qc_num self_density self_s self_velo
              state_two_jets f' ltac:(cbn; lia) E) as (H1 & H2 & _).
  split; assumption.
Defined.


Lemma step_postconditions_witness :
  3 <= size state_two_jets /\
  diffuse_defined state_two_jets (visc state_two_jets) = true /\
  diffuse_defined state_two_jets (diff state_two_jets) = true /\
  exists f',
    step state_two_jets = Ok f' /\
    same_config f' state_two_jets /\
    set_boundaries (Arr3 self_velo) f' = f' /\
    set_boundaries (Arr2 self_density) f' = f'.
Proof.
  split; [cbn; lia|]. do 2 (split; [reflexivity|]).
  destruct (step state_two_jets) as [f'|] eqn:E;
    [|vm_compute in E; discriminate E].
  exists f'. split; [reflexivity|].
  apply (@step_postconditions Qc Qc_num state_two_jets f');
    [cbn; lia | reflexivity | reflexivity | exact E].
Defined.


Lemma vector_divergence_cells_witness :
  0 <= 2 < size state_two_jets /\ 0 <= 3 < size state_two_jets /\
  get (vector_divergence state_two_jets) 2 3
  = window_sum (velo state_two_jets) 2 3.
Proof.
  split; [cbn; lia|]. split; [cbn; lia|].
  destruct (@vector_divergence_cells Qc Qc_num state_two_jets 2 3)
    as [H _]; [cbn; lia | cbn; lia |].
  apply H; cbn; lia.
Defined.

Lemma vector_divergence_misses_last_interior_witness :
  3 <= size state_two_jets /\ 0 <= 2 < size state_two_jets /\
  get (vector_divergence state_two_jets) (size state_two_jets - 2) 2
  = of_int 0.
Proof.
  split; [cbn; lia|]. split; [cbn; lia|].
  destruct (@vector_divergence_misses_last_interior Qc Qc_num
              state_two_jets 2) as [H _]; [cbn; lia | cbn; lia |].
  exact H.
Defined.

Lemma vector_divergence_exact_witness :
  1 <= 2 < size state_two_jets - 2 /\
  get (vector_divergence state_two_jets) 2 2
  = (of_int 3 * half *
     ((get (vf0 (velo state_two_jets)) (2 + 1) (2 - 1)
       - get (vf0 (velo state_two_jets)) (2 - 1) (2 - 1))
      + (get (vf0 (velo state_two_jets)) (2 + 1) 2
         - get (vf0 (velo state_two_jets)) (2 - 1) 2)
      + (get (vf0 (velo state_two_jets)) (2 + 1) (2 + 1)
         - get (vf0 (velo state_two_jets)) (2 - 1) (2 + 1))
      + (get (vf1 (velo state_two_jets)) (2 - 1) (2 + 1)
         - get (vf1 (velo state_two_jets)) (2 - 1) (2 - 1))
      + (get (vf1 (velo state_two_jets)) 2 (2 + 1)
         - get (vf1 (velo state_two_jets)) 2 (2 - 1))
      + (get (vf1 (velo state_two_jets)) (2 + 1) (2 + 1)
         - get (vf1 (velo state_two_jets)) (2 + 1) (2 - 1))))%Qc.
Proof.
  split; [cbn; lia|].
  apply (@vector_divergence_exact state_two_jets 2 2); cbn; lia.
Defined.


Lemma set_boundaries_frame_witness :
  2 <= size state_stirred /\
  forall v, ~ In v (planes (Arr3 self_velo)) ->
    read2 v (set_boundaries (Arr3 self_velo) state_stirred)
    = read2 v state_stirred.
Proof.
  split; [cbn; lia|].
  pose proof (@set_boundaries_frame Qc Qc_num (Arr3 self_velo) state_stirred
                ltac:(cbn; lia)) as H.
  cbv zeta in H. destruct H as (_ & _ & H). exact H.
Defined.

Lemma total_density_set_boundaries_witness :
  2 <= size state_corner_density /\
  total_density (set_boundaries (Arr2 self_density) state_corner_density)
  = total_density state_corner_density.
Proof.
  split; [cbn; lia|].
  apply (@total_density_set_boundaries Qc Qc_num (Arr2 self_density)
           state_corner_density).
  cbn. lia.
Defined.

Lemma lin_solve_frame_witness :
  2 <= size state_stirred /\
  ndim (Arr2 self_s) = ndim (Arr2 self_density) /\
  fne (of_int 6 : Qc) (of_int 0) = true /\
  same_config
    (lin_solve (Arr2 self_s) (Arr2 self_density) (of_int 1) (of_int 6)
       state_stirred)
    state_stirred.
Proof.
  split; [cbn; lia|]. do 2 (split; [reflexivity|]).
  pose proof (@lin_solve_frame Qc Qc_num (Arr2 self_s) (Arr2 self_density)
                (of_int 1) (of_int 6) state_stirred
                ltac:(cbn; lia) eq_refl eq_refl) as [H _].
  exact H.
Defined.

Lemma diffuse_frame_witness :
  2 <= size state_stirred /\
  ndim (Arr3 self_velo0) = ndim (Arr3 self_velo) /\
  diffuse_defined state_stirred (of_int 1) = true /\
  same_config
    (diffuse (Arr3 self_velo0) (Arr3 self_velo) (of_int 1) state_stirred)
    state_stirred.
Proof.
  split; [cbn; lia|]. do 2 (split; [reflexivity|]).
  pose proof (@diffuse_frame Qc Qc_num (Arr3 self_velo0) (Arr3 self_velo)
                (of_int 1) state_stirred
                ltac:(cbn; lia) eq_refl eq_refl) as [H _].
  exact H.
Defined.


Lemma lin_solve_uniform_witness :
  3 <= size state_uniform /\ of_int 6 <> 0%Qc /\
  self_s <> self_density /\
  read2 self_density state_uniform = full (size state_uniform) (of_int 3) /\
  read2 self_s state_uniform = full (size state_uniform) (of_int 3) /\
  read2 self_s
    (lin_solve (Arr2 self_s) (Arr2 self_density) (of_int 1) (of_int 6)
       state_uniform)
  = full (size state_uniform)
      (Nat.iter (Z.to_nat (iter state_uniform))
         (fun w => ((of_int 3 + of_int 1 * (w + w + w + w)) / of_int 6)%Qc)
         (of_int 3)).
Proof.
  split; [cbn; lia|]. split; [apply of_int_6_nonzero|].
  split; [discriminate|]. do 2 (split; [reflexivity|]).
  apply (@lin_solve_uniform self_s self_density (of_int 1) (of_int 6)
           (of_int 3) (of_int 3) state_uniform);
    first [reflexivity | discriminate | apply of_int_6_nonzero | cbn; lia].
Defined.
